(** * VTNECards: tools/parse_docx_to_json.py

    A shallow embedding of the document-extraction pipeline (image
    resolver, run renderer, cell renderer, table extractor, manifest
    tracker) and the properties its specification states about it. *)

From Stdlib Require Import ZArith Ascii String Decimal DecimalNat Strings.Byte
  Permutation Sorted.
From stdpp Require Import base list gmap strings.

Set Warnings "-register-all".

Open Scope Z_scope.
Open Scope nat_scope.

(** ** Python strings

    A Python [str] is a sequence of Unicode code points.  Code points are
    kept as [N], so that [str.strip] can be modelled with Python's own
    table of whitespace characters rather than ASCII only. *)

Abbreviation pystr := (list N).

Definition py (s : string) : pystr :=
  (fun a => N_of_ascii a) <$> list_ascii_of_string s.

(** [str.isspace] for one character: the code points for which CPython's
    [_PyUnicode_IsWhitespace] answers yes. *)
Definition isspace (c : N) : bool :=
  ((9 <=? c) && (c <=? 13) || (28 <=? c) && (c <=? 32)
   || (c =? 133) || (c =? 160) || (c =? 5760)
   || (8192 <=? c) && (c <=? 8202)
   || (c =? 8232) || (c =? 8233) || (c =? 8239) || (c =? 8287)
   || (c =? 12288))%N.

Fixpoint drop_while {A} (f : A → bool) (l : list A) : list A :=
  match l with
  | [] => []
  | x :: l' => if f x then drop_while f l' else l
  end.

Definition lstrip (s : pystr) : pystr := drop_while isspace s.
Definition rstrip (s : pystr) : pystr := reverse (drop_while isspace (reverse s)).

(** [s.strip()] *)
Definition strip (s : pystr) : pystr := rstrip (lstrip s).

(** [s.startswith(p)] *)
Fixpoint startswith (p s : pystr) : bool :=
  match p, s with
  | [], _ => true
  | _ :: _, [] => false
  | a :: p', b :: s' => (a =? b)%N && startswith p' s'
  end.

(** [p in s] for strings: [p] occurs as a contiguous substring of [s]. *)
Fixpoint contains (p s : pystr) : bool :=
  startswith p s || match s with [] => false | _ :: s' => contains p s' end.

(** [sep.join(parts)] *)
Fixpoint join (sep : pystr) (parts : list pystr) : pystr :=
  match parts with
  | [] => []
  | [x] => x
  | x :: rest => x ++ sep ++ join sep rest
  end.

(** Truthiness of a string: [if s:] *)
Definition nonempty (s : pystr) : bool :=
  match s with [] => false | _ => true end.

(** Lexicographic order on code points: Python's [<] on [str]. *)
Fixpoint str_lt (a b : pystr) : bool :=
  match a, b with
  | _, [] => false
  | [], _ :: _ => true
  | x :: a', y :: b' => (x <? y)%N || (x =? y)%N && str_lt a' b'
  end.

(** [sorted(l)]: Python's sort is stable and only asks [<]; the stable
    sort of a list is computed here by insertion from the right. *)
Fixpoint insert_by {A} (lt : A → A → bool) (x : A) (l : list A) : list A :=
  match l with
  | [] => [x]
  | y :: l' => if lt y x then y :: insert_by lt x l' else x :: l
  end.

Definition sorted_by {A} (lt : A → A → bool) (l : list A) : list A :=
  foldr (insert_by lt) [] l.

(** Decimal digits of a natural number, as a string. *)
Fixpoint digits_of_uint (u : Decimal.uint) : pystr :=
  match u with
  | Nil => []
  | D0 u => 48%N :: digits_of_uint u
  | D1 u => 49%N :: digits_of_uint u
  | D2 u => 50%N :: digits_of_uint u
  | D3 u => 51%N :: digits_of_uint u
  | D4 u => 52%N :: digits_of_uint u
  | D5 u => 53%N :: digits_of_uint u
  | D6 u => 54%N :: digits_of_uint u
  | D7 u => 55%N :: digits_of_uint u
  | D8 u => 56%N :: digits_of_uint u
  | D9 u => 57%N :: digits_of_uint u
  end.

Definition str_of_nat (n : nat) : pystr := digits_of_uint (Nat.to_uint n).

(** [f"{n:02d}"] for a non-negative [n]: decimal, padded on the left with
    zeros up to a width of two. *)
Definition fmt02 (n : nat) : pystr :=
  let d := str_of_nat n in
  replicate (2 - length d) 48%N ++ d.

(** ** Exceptions and results *)

Inductive exn :=
  | KeyError
  | IndexError (msg : pystr)
  | AttributeError
  | TypeError
  | JSONDecodeError
  | OtherError.

Inductive result (A : Type) :=
  | Ok (a : A)
  | Raise (e : exn).
Arguments Ok {A} a.
Arguments Raise {A} e.

Global Instance result_ret : MRet result := λ A a, Ok a.
Global Instance result_bind : MBind result := λ A B k r,
  match r with
  | Ok a => k a
  | Raise e => Raise e
  end.

Fixpoint foldM {A S} (f : S → A → result S) (l : list A) (s : S) : result S :=
  match l with
  | [] => Ok s
  | x :: l' => s' ← f s x; foldM f l' s'
  end.

(** ** Python dictionaries

    A [dict] keeps its keys in insertion order; assigning to a key that is
    present replaces the value in place, assigning to a new key appends. *)

Section dict.
Context {K : Type} `{EqDecision K} {V : Type}.

Fixpoint dget (k : K) (d : list (K * V)) : option V :=
  match d with
  | [] => None
  | (k', v) :: d' => if decide (k = k') then Some v else dget k d'
  end.

Fixpoint dset (k : K) (v : V) (d : list (K * V)) : list (K * V) :=
  match d with
  | [] => [(k, v)]
  | (k', v') :: d' =>
      if decide (k = k') then (k, v) :: d' else (k', v') :: dset k v d'
  end.

(** [d.get(k, default)] *)
Definition dget_default (k : K) (default : V) (d : list (K * V)) : V :=
  match dget k d with Some v => v | None => default end.

Definition dkeys (d : list (K * V)) : list K := fst <$> d.
Definition dvalues (d : list (K * V)) : list V := snd <$> d.
End dict.

(** ** os.path.splitext (posixpath)

    [genericpath._splitext] with [sep = "/"], no [altsep] and
    [extsep = "."]. *)

(** [p.rfind(c)]: index of the last occurrence of [c], or [-1]. *)
Definition rfind (c : N) (p : pystr) : Z :=
  fold_left (fun acc ix => if (snd ix =? c)%N then Z.of_nat (fst ix) else acc)
            (imap pair p) (-1)%Z.

(** The [while filenameIndex < dotIndex] loop: among the [n] characters
    from [start] on, is there one that is not a dot? *)
Fixpoint has_non_dot (p : pystr) (start n : nat) : bool :=
  match n with
  | O => false
  | S n' =>
      if bool_decide (take 1 (drop start p) ≠ [46%N]) then true
      else has_non_dot p (S start) n'
  end.

Definition splitext (p : pystr) : pystr * pystr :=
  let sepIndex := rfind 47%N p in
  let dotIndex := rfind 46%N p in
  if (sepIndex <? dotIndex)%Z
     && has_non_dot p (Z.to_nat (sepIndex + 1))
                      (Z.to_nat (dotIndex - (sepIndex + 1)))
  then (take (Z.to_nat dotIndex) p, drop (Z.to_nat dotIndex) p)
  else (p, []).

(** ** Image resolver: extract_images_from_docx *)

(** One entry of [doc.part.rels]. *)
Record rel := Rel { rId : pystr; reltype : pystr; target_ref : pystr }.

(** The container: entry name to byte content. *)
Abbreviation zipfile := (gmap pystr (list byte)).

(** [z.open(name)] raises [KeyError] when the archive has no such entry. *)
Definition z_open (z : zipfile) (name : pystr) : result (list byte) :=
  match z !! name with
  | Some content => Ok content
  | None => Raise KeyError
  end.

(** The local variables of [extract_images_from_docx], together with two
    logs of its effects: the names passed to [z.open], and the files
    written into the output folder. *)
Record resolver := Resolver {
  image_map : gmap pystr pystr;
  target_to_final : gmap pystr (option pystr);
  all_final_names : gset pystr;
  counter : nat;
  opened : list pystr;
  written : list (pystr * list byte)
}.

Definition resolver_init : resolver :=
  Resolver ∅ ∅ ∅ 1 [] [].

(** [relid_to_target]: the image relationships, keyed by relationship id. *)
Definition relid_to_target (rels : list rel) : list (pystr * pystr) :=
  fold_left
    (fun d r =>
       if contains (py "image") (reltype r)
       then dset (rId r) (target_ref r) d else d)
    rels [].

(** Normalisation of a target reference into a path inside the archive. *)
Definition normalize (target_ref : pystr) : pystr :=
  let target_ref :=
    if startswith (py "/") target_ref then drop 1 target_ref else target_ref in
  if negb (startswith (py "word/") target_ref)
  then py "word/" ++ target_ref
  else target_ref.

(** The extension used in the external name. *)
Definition ext_of (zip_path : pystr) : pystr :=
  let orig_ext := snd (splitext zip_path) in
  if negb (nonempty orig_ext) then py ".bin" else orig_ext.

(** [f"{doc_basename}_Image{counter:02d}{orig_ext}"] *)
Definition image_name (doc_basename : pystr) (n : nat) (zip_path : pystr) : pystr :=
  doc_basename ++ py "_Image" ++ fmt02 n ++ ext_of zip_path.

(** The [try] block: open the entry, then write it out.  [KeyError] is the
    only exception the handler catches. *)
Definition copy_entry (z : zipfile) (zip_path final_name : pystr)
    (st : resolver) : result (option pystr * resolver) :=
  let st := Resolver (image_map st) (target_to_final st) (all_final_names st)
                     (counter st) (opened st ++ [zip_path]) (written st) in
  match z_open z zip_path with
  | Ok src =>
      Ok (Some final_name,
          Resolver (image_map st) (target_to_final st) (all_final_names st)
                   (counter st) (opened st) (written st ++ [(final_name, src)]))
  | Raise KeyError => Ok (None, st)
  | Raise e => Raise e
  end.

(** The branch [if zip_path in target_to_final: ... else: ...], giving
    the value of [final_name] after it. *)
Definition lookup_or_copy (z : zipfile) (doc_basename : pystr)
    (st : resolver) (zip_path : pystr) : result (option pystr * resolver) :=
    match target_to_final st !! zip_path with
    | Some final_name => Ok (final_name, st)
    | None =>
        let final_name := image_name doc_basename (counter st) zip_path in
        let st := Resolver (image_map st) (target_to_final st)
                    (all_final_names st) (S (counter st)) (opened st)
                    (written st) in
        '(final_name, st) ← copy_entry z zip_path final_name st;
        Ok (final_name,
            Resolver (image_map st) (<[zip_path := final_name]> (target_to_final st))
                     (all_final_names st) (counter st) (opened st) (written st))
    end.

(** One iteration of the loop over [relid_to_target.items()]. *)
Definition resolve_rel (z : zipfile) (doc_basename : pystr)
    (st : resolver) (item : pystr * pystr) : result resolver :=
  let rid := fst item in
  let zip_path := normalize (snd item) in
  '(final_name, st) ← lookup_or_copy z doc_basename st zip_path;
  match final_name with
  | Some name =>
      Ok (Resolver (<[rid := name]> (image_map st)) (target_to_final st)
                   ({[name]} ∪ all_final_names st) (counter st) (opened st)
                   (written st))
  | None => Ok st
  end.

Definition run_resolver (z : zipfile) (doc_basename : pystr)
    (items : list (pystr * pystr)) : result resolver :=
  foldM (resolve_rel z doc_basename) items resolver_init.

(** The function from [rels = doc.part.rels] on, that is, for a document
    that has been opened: the returned pair
    [(image_map, sorted(all_final_names))]. *)
Definition extract_images_from_docx (rels : list rel) (z : zipfile)
    (doc_basename : pystr) : result (gmap pystr pystr * list pystr) :=
  st ← run_resolver z doc_basename (relid_to_target rels);
  Ok (image_map st, sorted_by str_lt (elements (all_final_names st))).

(** ** Document model (what python-docx exposes to the program) *)

(** [<a:blip>] with its optional [r:embed] attribute. *)
Record blip := Blip { embed : option pystr }.

(** [<w:drawing>]; [drawing.find(".//a:blip")] may find nothing. *)
Record drawing := Drawing { drawing_blip : option blip }.

Record run := Run { run_drawings : list drawing; run_text : pystr }.

(** [<w:ilvl>]: reading [.val] either gives an integer or raises. *)
Record ilvl_t := Ilvl { val : result Z }.
Record numPr_t := NumPr { ilvl : option ilvl_t }.
Record pPr_t := PPr { numPr : option numPr_t }.

Record paragraph := Paragraph { runs : list run; pPr : option pPr_t }.
Record cell := Cell { paragraphs : list paragraph }.
Record row := Row { cells : list cell }.
Record table := Table { rows : list row }.

Record docx := Docx {
  doc_path : pystr;
  doc_rels : list rel;
  doc_zip : zipfile;
  doc_tables : list table
}.

Definition is_list_paragraph (p : paragraph) : bool :=
  match pPr p with
  | None => false
  | Some ppr => match numPr ppr with None => false | Some _ => true end
  end.

Definition get_list_level (p : paragraph) : Z :=
  match pPr p with
  | None => 0%Z
  | Some ppr =>
      match numPr ppr with
      | None => 0%Z
      | Some npr =>
          match ilvl npr with
          | None => 0%Z
          | Some lv =>
              match val lv with
              | Ok n => n
              | Raise _ => 0%Z
              end
          end
      end
  end.

(** ** Run renderer: extract_paragraph_with_images *)

(** [f"[[image:{image_filename}]]"] *)
Definition placeholder (image_filename : pystr) : pystr :=
  py "[[image:" ++ image_filename ++ py "]]".

(** Body of [for drawing in drawings]. An absent [r:embed] gives
    [rid = None], which is in no dictionary. *)
Definition drawing_step (image_map : gmap pystr pystr)
    (runs_output : list pystr) (d : drawing) : list pystr :=
  match drawing_blip d with
  | Some b =>
      match embed b with
      | Some rid =>
          match image_map !! rid with
          | Some image_filename => runs_output ++ [placeholder image_filename]
          | None => runs_output
          end
      | None => runs_output
      end
  | None => runs_output
  end.

(** Body of [for run in paragraph.runs]. *)
Definition run_step (image_map : gmap pystr pystr)
    (runs_output : list pystr) (r : run) : list pystr :=
  match run_drawings r with
  | _ :: _ => fold_left (drawing_step image_map) (run_drawings r) runs_output
  | [] =>
      if nonempty (run_text r) then runs_output ++ [run_text r]
      else runs_output
  end.

Definition extract_paragraph_with_images (p : paragraph)
    (image_map : gmap pystr pystr) : pystr :=
  strip (join [] (fold_left (run_step image_map) (runs p) [])).

(** ** Cell renderer *)

(** ["\t" * level]: a negative count gives the empty string. *)
Definition tabs (level : Z) : pystr := replicate (Z.to_nat level) 9%N.

(** The bullet and the space after it: U+2022, U+0020. *)
Definition bullet : pystr := [8226%N; 32%N].

Definition cell_text_step (image_map : gmap pystr pystr)
    (lines : list pystr) (p : paragraph) : list pystr :=
  let content := extract_paragraph_with_images p image_map in
  if negb (nonempty content) then lines
  else if is_list_paragraph p then
    let level := get_list_level p in
    let indent := tabs level in
    lines ++ [indent ++ bullet ++ content]
  else lines ++ [content].

Definition extract_cell_text_preserve_lists_and_images (c : cell)
    (image_map : gmap pystr pystr) : pystr :=
  join [10%N] (fold_left (cell_text_step image_map) (paragraphs c) []).

Definition cell_title_step (image_map : gmap pystr pystr)
    (parts : list pystr) (p : paragraph) : list pystr :=
  let content := extract_paragraph_with_images p image_map in
  if nonempty content then parts ++ [content] else parts.

Definition extract_cell_title_with_images (c : cell)
    (image_map : gmap pystr pystr) : pystr :=
  strip (join [32%N] (fold_left (cell_title_step image_map) (paragraphs c) [])).

(** ** Table extractor: parse_docx_table_with_images *)

Record card := Card { title : pystr; detail : pystr }.

(** [l[i]] for a Python list and any integer [i]. *)
Definition py_index {A} (l : list A) (i : Z) : result A :=
  let n := Z.of_nat (length l) in
  let j := if (i <? 0)%Z then (i + n)%Z else i in
  if (j <? 0)%Z then Raise (IndexError (py "list index out of range"))
  else match l !! Z.to_nat j with
       | Some x => Ok x
       | None => Raise (IndexError (py "list index out of range"))
       end.

(** The message of the error raised for a table index past the end. *)
Definition table_error_msg (path : pystr) (ntables : nat) (table_index : Z) : pystr :=
  py "'" ++ path ++ py "' has only " ++ str_of_nat ntables ++ py " tables, "
  ++ py "but index=" ++ str_of_nat (Z.to_nat table_index) ++ py " was requested.".

(** Body of [for row in table.rows[start_row:]]. *)
Definition row_step (image_map : gmap pystr pystr)
    (cards : list card) (r : row) : list card :=
  match cells r with
  | c0 :: c1 :: _ =>
      let title := extract_cell_title_with_images c0 image_map in
      let detail := extract_cell_text_preserve_lists_and_images c1 image_map in
      if negb (nonempty title) && negb (nonempty detail) then cards
      else cards ++ [Card title detail]
  | _ => cards
  end.

Definition parse_docx_table_with_images (d : docx) (doc_basename : pystr)
    (table_index : Z) (has_header : bool) : result (list card * list pystr) :=
  '(image_map, image_files) ←
    extract_images_from_docx (doc_rels d) (doc_zip d) doc_basename;
  if (Z.of_nat (length (doc_tables d)) <=? table_index)%Z
  then Raise (IndexError (table_error_msg (doc_path d) (length (doc_tables d))
                                          table_index))
  else
    table ← py_index (doc_tables d) table_index;
    let start_row := if has_header then 1 else 0 in
    Ok (fold_left (row_step image_map) (drop start_row (rows table)) [],
        image_files).

(** ** Manifest tracker *)

(** JSON values as [json.load] builds them (numbers are the integers;
    floating-point numbers are not modelled). An object keeps the order of
    its keys. *)
Inductive jval :=
  | JNull
  | JBool (b : bool)
  | JNum (n : Z)
  | JStr (s : pystr)
  | JArr (l : list jval)
  | JObj (o : list (pystr * jval)).

(** A manifest entry: a JSON object. *)
Abbreviation entry := (list (pystr * jval)).

(** Keys of the in-memory index. [True] and [1] are the same key. *)
Inductive hkey :=
  | HNone
  | HInt (n : Z)
  | HStr (s : pystr).

Global Instance hkey_eq_dec : EqDecision hkey.
Proof. solve_decision. Defined.

Abbreviation manifest_index := (list (hkey * entry)).

(** Truth value of a JSON value: [if v:] *)
Definition truthy (v : jval) : bool :=
  match v with
  | JNull => false
  | JBool b => b
  | JNum n => negb (n =? 0)%Z
  | JStr s => nonempty s
  | JArr l => match l with [] => false | _ => true end
  | JObj o => match o with [] => false | _ => true end
  end.

(** Use of a value as a dictionary key: lists and dicts are unhashable. *)
Definition hash_key (v : jval) : result hkey :=
  match v with
  | JNull => Ok HNone
  | JBool b => Ok (HInt (if b then 1 else 0)%Z)
  | JNum n => Ok (HInt n)
  | JStr s => Ok (HStr s)
  | JArr _ | JObj _ => Raise TypeError
  end.

(** [v.get(k, default)]: only a dict has [get]. *)
Definition py_get (v : jval) (k : pystr) (default : jval) : result jval :=
  match v with
  | JObj o => Ok (dget_default k default o)
  | _ => Raise AttributeError
  end.

(** [for x in v]: a list gives its elements, a string its characters, a
    dict its keys; the other values are not iterable. *)
Definition py_iter (v : jval) : result (list jval) :=
  match v with
  | JArr l => Ok l
  | JStr s => Ok ((fun c => JStr [c]) <$> s)
  | JObj o => Ok ((fun kv => JStr (fst kv)) <$> o)
  | _ => Raise TypeError
  end.

(** [a < b] on the values a sort key can take: strings among themselves,
    integers and booleans among themselves; everything else raises
    [TypeError]. (Python also orders two lists; a list is unhashable and so
    never is the path of an entry of the index.) *)
Definition py_lt (a b : jval) : result bool :=
  match a, b with
  | JStr x, JStr y => Ok (str_lt x y)
  | JNum x, JNum y => Ok (x <? y)%Z
  | JNum x, JBool y => Ok (x <? (if y then 1 else 0))%Z
  | JBool x, JNum y => Ok ((if x then 1 else 0) <? y)%Z
  | JBool x, JBool y => Ok ((if x then 1 else 0) <? (if y then 1 else 0))%Z
  | _, _ => Raise TypeError
  end.

(** The state of a path of the file system, as far as [load_manifest]
    sees it: a file is described by what [json.load] does on it. *)
Inductive file :=
  | Unparsable (e : exn)
  | Parsed (data : jval).

Definition json_load (f : file) : result jval :=
  match f with
  | Unparsable e => Raise e
  | Parsed data => Ok data
  end.

Abbreviation filesystem := (gmap pystr file).

(** Body of [for entry in data.get("files", [])]. *)
Definition load_step (index : manifest_index) (e : jval) : result manifest_index :=
  path ← py_get e (py "path") JNull;
  if truthy path then
    k ← hash_key path;
    match e with
    | JObj o => Ok (dset k o index)
    | _ => Raise AttributeError
    end
  else Ok index.

Definition load_manifest (fs : filesystem) (manifest_path : pystr)
    : result (jval * manifest_index) :=
  match fs !! manifest_path with
  | None =>
      Ok (JObj [(py "generated_at", JNull); (py "files", JArr [])], [])
  | Some f =>
      data ← json_load f;
      files ← py_get data (py "files") (JArr []);
      entries ← py_iter files;
      index ← foldM load_step entries [];
      Ok (data, index)
  end.

(** [sorted(l, key=key)] where comparing two keys may raise. *)
Fixpoint insertM {A} (lt : A → A → result bool) (x : A) (l : list A)
    : result (list A) :=
  match l with
  | [] => Ok [x]
  | y :: l' =>
      b ← lt y x;
      if b : bool then r ← insertM lt x l'; Ok (y :: r) else Ok (x :: l)
  end.

Fixpoint sortedM {A} (lt : A → A → result bool) (l : list A) : result (list A) :=
  match l with
  | [] => Ok []
  | x :: l' => s ← sortedM lt l'; insertM lt x s
  end.

(** [lambda e: e.get("path", "")] *)
Definition path_key (e : entry) : jval := dget_default (py "path") (JStr []) e.

(** [save_manifest]: the data handed to [json.dump]; [now] is the
    timestamp [datetime.now(timezone.utc).isoformat()]. *)
Definition save_manifest (now : pystr) (manifest_data : entry)
    (index : manifest_index) : result entry :=
  let manifest_data := dset (py "generated_at") (JStr now) manifest_data in
  files ← sortedM (fun a b => py_lt (path_key a) (path_key b)) (dvalues index);
  Ok (dset (py "files") (JArr (JObj <$> files)) manifest_data).

(** The three assignments and the store back into the index, in [main]. *)
Definition upsert (index : manifest_index) (name type source_docx parsed_at : pystr)
    : manifest_index :=
  let e := dget_default (HStr name) [(py "path", JStr name)] index in
  let e := dset (py "type") (JStr type) e in
  let e := dset (py "source_docx") (JStr source_docx) e in
  let e := dset (py "parsed_at") (JStr parsed_at) e in
  dset (HStr name) e index.

(** What one processed document contributes to the manifest. *)
Record doc_output := DocOutput {
  source_docx : pystr;
  parsed_at : pystr;
  output_json_name : pystr;
  image_files : list pystr
}.

(** The manifest part of one iteration of the loop of [main]. *)
Definition update_manifest (index : manifest_index) (d : doc_output)
    : manifest_index :=
  let index :=
    upsert index (output_json_name d) (py "json") (source_docx d) (parsed_at d) in
  fold_left
    (fun index img_name =>
       upsert index img_name (py "image") (source_docx d) (parsed_at d))
    (image_files d) index.

(** All documents of a batch, then [save_manifest]. *)
Definition run_batch (now : pystr) (manifest_data : entry)
    (index : manifest_index) (batch : list doc_output) : result entry :=
  save_manifest now manifest_data (fold_left update_manifest batch index).

(** ** Definitions used to state the properties *)

(** The distinct elements of a list, in the order of their first
    occurrence. *)
Definition see (acc : list pystr) (p : pystr) : list pystr :=
  if decide (p ∈ acc) then acc else acc ++ [p].

Definition first_seen (l : list pystr) : list pystr := fold_left see l [].

(** The normalised container paths of a document's image relationships,
    one per relationship, in processing order. *)
Definition zip_paths (items : list (pystr * pystr)) : list pystr :=
  (fun item => normalize (snd item)) <$> items.

(** What the [i]-th distinct path (counting from 0) resolves to. *)
Definition outcome (z : zipfile) (doc_basename : pystr) (i : nat) (p : pystr)
    : option pystr :=
  match z !! p with
  | Some _ => Some (image_name doc_basename (S i) p)
  | None => None
  end.

(** The files written for a list of distinct paths. *)
Definition written_of (z : zipfile) (doc_basename : pystr) (paths : list pystr)
    : list (pystr * list byte) :=
  omap (fun ip => (fun c => (image_name doc_basename (S (fst ip)) (snd ip), c))
                    <$> z !! snd ip)
       (imap pair paths).

(** The loop invariant of [extract_images_from_docx], after the items
    [processed]. *)
Record resolver_inv (z : zipfile) (doc_basename : pystr)
    (processed : list (pystr * pystr)) (st : resolver) : Prop := {
  inv_opened : opened st = first_seen (zip_paths processed);
  inv_counter : counter st = S (length (opened st));
  inv_nodup : NoDup (opened st);
  inv_ttf_dom : ∀ p, target_to_final st !! p = None ↔ p ∉ opened st;
  inv_ttf : ∀ i p, opened st !! i = Some p →
      target_to_final st !! p = Some (outcome z doc_basename i p);
  inv_map : ∀ rid t, (rid, t) ∈ processed →
      ∃ i, opened st !! i = Some (normalize t)
           ∧ image_map st !! rid = outcome z doc_basename i (normalize t);
  inv_map_dom : ∀ rid, rid ∉ (fst <$> processed) → image_map st !! rid = None;
  inv_written : written st = written_of z doc_basename (opened st);
  inv_names : ∀ n, n ∈ all_final_names st ↔ ∃ rid, image_map st !! rid = Some n
}.

(** ** Sample documents *)

Definition image_reltype : pystr :=
  py "http://schemas.openxmlformats.org/officeDocument/2006/relationships/image".

(** Two relationships to one picture, one to a picture that the archive
    lacks, one to a second picture, and a hyperlink. *)
Definition sample_rels : list rel :=
  [ Rel (py "rId1") image_reltype (py "media/image1.png");
    Rel (py "rId2") image_reltype (py "/word/media/image1.png");
    Rel (py "rId3") image_reltype (py "media/gone.jpeg");
    Rel (py "rId4") (py "http://example.org/relationships/hyperlink")
        (py "http://example.org/");
    Rel (py "rId5") image_reltype (py "media/chart") ].

Definition sample_zip : zipfile :=
  {[ py "word/media/image1.png" := [x89; x50]%byte;
     py "word/media/chart" := [x01]%byte ]}.

(** A document with [n] pictures, each referenced once. *)
Definition many_rels (n : nat) : list rel :=
  (fun i => Rel (py "rId" ++ str_of_nat i) image_reltype
                (py "media/image" ++ str_of_nat i ++ py ".png"))
  <$> seq 1 n.

Definition many_zip (n : nat) : zipfile :=
  list_to_map ((fun i => (py "word/media/image" ++ str_of_nat i ++ py ".png",
                          [x00]%byte)) <$> seq 1 n).

(** ** The renderers as the specification words them *)

(** The relationship identifier a drawing refers to, if any. *)
Definition drawing_rid (d : drawing) : option pystr :=
  match drawing_blip d with
  | Some b => embed b
  | None => None
  end.

(** The filename a drawing resolves to in the index, if any. *)
Definition resolved (image_map : gmap pystr pystr) (d : drawing) : option pystr :=
  match drawing_rid d with
  | Some rid => image_map !! rid
  | None => None
  end.

(** What one run contributes: the placeholders of its resolved drawings
    when it has drawings, its text otherwise. *)
Definition spec_run_contribution (image_map : gmap pystr pystr) (r : run) : pystr :=
  match run_drawings r with
  | [] => run_text r
  | _ :: _ => concat (placeholder <$> omap (resolved image_map) (run_drawings r))
  end.

Definition spec_render_paragraph (image_map : gmap pystr pystr) (p : paragraph)
    : pystr :=
  strip (concat (spec_run_contribution image_map <$> runs p)).

(** The line a paragraph gives in list-preserving mode, if any. *)
Definition spec_line (image_map : gmap pystr pystr) (p : paragraph) : option pystr :=
  let content := extract_paragraph_with_images p image_map in
  if nonempty content then
    Some (if is_list_paragraph p
          then replicate (Z.to_nat (get_list_level p)) 9%N ++ bullet ++ content
          else content)
  else None.

Definition spec_cell_text (image_map : gmap pystr pystr) (c : cell) : pystr :=
  join [10%N] (omap (spec_line image_map) (paragraphs c)).

(** Title mode: the non-empty paragraph renders, joined by one space,
    trimmed. *)
Definition spec_cell_title (image_map : gmap pystr pystr) (c : cell) : pystr :=
  strip (join [32%N]
           (filter (fun s => nonempty s = true)
                   ((fun p => extract_paragraph_with_images p image_map)
                      <$> paragraphs c))).

(** The record a row gives, if any: rows with fewer than two cells give
    none, the others give one unless title and detail are both empty
    after trimming. *)
Definition spec_card (image_map : gmap pystr pystr) (r : row) : option card :=
  match cells r with
  | c0 :: c1 :: _ =>
      let t := spec_cell_title image_map c0 in
      let d := spec_cell_text image_map c1 in
      if nonempty (strip t) || nonempty (strip d) then Some (Card t d) else None
  | _ => None
  end.

(** A string with at least one character that is not whitespace. *)
Definition visible (s : pystr) : Prop := Exists (fun c => isspace c = false) s.

(** A small document: a header row, a row with a bullet list, a row with
    an inline picture (and stray text in the same run), a row whose
    picture is missing from the archive, a blank row, and a row with a
    single cell. *)
Definition text_par (s : string) : paragraph := Paragraph [Run [] (py s)] None.

Definition bullet_par (level : result Z) (s : string) : paragraph :=
  Paragraph [Run [] (py s)] (Some (PPr (Some (NumPr (Some (Ilvl level)))))).

Definition image_par (rid : string) : paragraph :=
  Paragraph [Run [] (py " see "); Run [Drawing (Some (Blip (Some (py rid))))] (py "stray")]
            None.

Definition sample_table : table :=
  Table [ Row [Cell [text_par "Title"]; Cell [text_par "Detail"]];
          Row [Cell [text_par "Cats"];
               Cell [bullet_par (Ok 0%Z) "item1"; text_par " ";
                     bullet_par (Ok 1%Z) "item2";
                     bullet_par (Raise OtherError) "item3"]];
          Row [Cell [text_par "Dogs"; bullet_par (Ok 2%Z) "and more"];
               Cell [image_par "rId1"]];
          Row [Cell [text_par "  "]; Cell [image_par "rId3"]];
          Row [Cell [text_par "  "]; Cell [text_par ""]];
          Row [Cell [text_par "one cell"]] ].

Definition sample_doc : docx :=
  Docx (py "doc.docx") sample_rels sample_zip [sample_table].

Definition sample_image_map : gmap pystr pystr :=
  {[ py "rId1" := py "doc_Image01.png"; py "rId2" := py "doc_Image01.png";
     py "rId5" := py "doc_Image03.bin" ]}.

(** ** The manifest updates as the specification words them *)

(** One upsert: the filename and the three fields it overwrites. *)
Record upsert_op := UpsertOp {
  op_name : pystr;
  op_type : pystr;
  op_source : pystr;
  op_parsed_at : pystr
}.

Definition doc_ops (d : doc_output) : list upsert_op :=
  UpsertOp (output_json_name d) (py "json") (source_docx d) (parsed_at d)
  :: ((fun img => UpsertOp img (py "image") (source_docx d) (parsed_at d))
        <$> image_files d).

Definition batch_ops (batch : list doc_output) : list upsert_op :=
  batch ≫= doc_ops.

Definition apply_op (index : manifest_index) (op : upsert_op) : manifest_index :=
  upsert index (op_name op) (op_type op) (op_source op) (op_parsed_at op).

(** The filenames a batch touches. *)
Definition touched (batch : list doc_output) : list pystr :=
  op_name <$> batch_ops batch.

(** The entry an upsert starts from: the one in the index, or a new one
    that only has its path. *)
Definition base_entry (index : manifest_index) (name : pystr) : entry :=
  dget_default (HStr name) [(py "path", JStr name)] index.

(** An index as [load_manifest] builds it from a manifest whose paths are
    strings: every entry is stored under its own path. *)
Definition str_paths (index : manifest_index) : Prop :=
  ∀ k e, dget k index = Some e →
         ∃ s, k = HStr s ∧ dget (py "path") e = Some (JStr s).

(** Order of two entries by their path. *)
Definition entry_le (a b : entry) : Prop :=
  ∃ x y, path_key a = JStr x ∧ path_key b = JStr y ∧ str_lt y x = false.

(** A manifest of an earlier run, with a field the program does not know. *)
Definition sample_index : manifest_index :=
  [ (HStr (py "old.json"),
     [(py "path", JStr (py "old.json")); (py "type", JStr (py "json"));
      (py "source_docx", JStr (py "old.docx"));
      (py "parsed_at", JStr (py "2024-01-01T00:00:00+00:00"))]);
    (HStr (py "doc.json"),
     [(py "path", JStr (py "doc.json")); (py "type", JStr (py "json"));
      (py "note", JNum 7);
      (py "source_docx", JStr (py "doc.docx"));
      (py "parsed_at", JStr (py "2024-01-01T00:00:00+00:00"))]) ].

Definition sample_batch : list doc_output :=
  [ DocOutput (py "doc.docx") (py "2025-02-02T00:00:00+00:00") (py "doc.json")
              [py "doc_Image01.png"; py "doc_Image03.bin"] ].

Definition sample_fs : filesystem :=
  {[ py "out/broken.json" := Unparsable JSONDecodeError;
     py "out/manifest.json" :=
       Parsed (JObj [(py "generated_at", JStr (py "2024-01-01T00:00:00+00:00"));
                     (py "files", JArr (JObj <$> dvalues sample_index))]) ]}.

(** The fields an upsert writes. *)
Definition updated_fields : list pystr :=
  [py "type"; py "source_docx"; py "parsed_at"].

(** An entry whose sort key is a string. *)
Definition str_keyed (e : entry) : Prop := ∃ s, path_key e = JStr s.

(** The comparison [sorted] makes between two entries. *)
Definition entry_lt (a b : entry) : result bool :=
  py_lt (path_key a) (path_key b).

(** A manifest entry as the program writes it: an object whose path, if
    it has one, is a string. *)
Definition str_path_entry (e : jval) : Prop :=
  ∃ o, e = JObj o
       ∧ (dget (py "path") o = None ∨ ∃ s, dget (py "path") o = Some (JStr s)).

(** ** Further definitions used to state properties *)

(** An ASCII decimal digit. *)
Definition is_digit (c : N) : Prop := (48 ≤ c ≤ 57)%N.

(** A file extension: a dot followed by characters among which there is
    neither a dot nor a path separator. *)
Definition well_formed_ext (e : pystr) : Prop :=
  ∃ rest, e = (46%N :: rest) ∧ (46%N ∉ rest) ∧ (47%N ∉ rest).

(** Does a manifest entry have the string [s] as its path? *)
Definition path_is (s : pystr) (o : entry) : bool :=
  match dget (py "path") o with
  | Some (JStr s') => bool_decide (s' = s)
  | _ => false
  end.

(** An entry whose sort key is an integer (or a boolean). *)
Definition int_keyed (e : entry) : Prop :=
  match path_key e with
  | JNum _ | JBool _ => True
  | _ => False
  end.

(** An index in which one entry has a number for a path. *)
Definition mixed_index : manifest_index :=
  [ (HInt 5, [(py "path", JNum 5)]);
    (HStr (py "doc.json"), [(py "path", JStr (py "doc.json"))]) ].

(** ** The loop of [main] *)

(** The files a call of [parse_docx_table_with_images] writes into the
    output folder: those of the image resolver, which runs before the
    table is looked up. *)
Definition images_written (d : docx) (doc_basename : pystr)
    : list (pystr * list byte) :=
  match run_resolver (doc_zip d) doc_basename (relid_to_target (doc_rels d)) with
  | Ok st => written st
  | Raise _ => []
  end.

(** One candidate document: its file name, what the file holds (a
    document that python-docx opens), and the time at which it is
    processed. *)
Record input_doc := InputDoc {
  in_filename : pystr;
  in_docx : docx;
  in_parsed_at : pystr
}.

(** What the loop has produced so far: the image and JSON files written
    into the output folder, the manifest index and the count of cards. *)
Record batch_state := BatchState {
  out_images : list (pystr * list byte);
  out_json : list (pystr * list card);
  batch_index : manifest_index;
  total_cards : nat
}.

(** Body of [for filename in docx_files]. *)
Definition process_document (table_index : Z) (has_header : bool)
    (st : batch_state) (inp : input_doc) : batch_state :=
  let filename := in_filename inp in
  let base := fst (splitext filename) in
  let output_json_name := base ++ py ".json" in
  let images := images_written (in_docx inp) base in
  match parse_docx_table_with_images (in_docx inp) base table_index has_header with
  | Raise _ =>
      BatchState (out_images st ++ images) (out_json st) (batch_index st)
                 (total_cards st)
  | Ok (cards, image_files) =>
      BatchState (out_images st ++ images)
                 (out_json st ++ [(output_json_name, cards)])
                 (update_manifest (batch_index st)
                    (DocOutput filename (in_parsed_at inp) output_json_name
                               image_files))
                 (total_cards st + length cards)
  end.

Definition main_loop (table_index : Z) (has_header : bool)
    (docs : list input_doc) (index : manifest_index) : batch_state :=
  fold_left (process_document table_index has_header) docs
            (BatchState [] [] index 0).

(** [main] from the loading of the manifest on: [docs] are the candidate
    documents in processing order, [now] the time of the save. The result
    holds the manifest data saved, if any. *)
Definition main (fs : filesystem) (manifest_path : pystr) (table_index : Z)
    (has_header : bool) (docs : list input_doc) (now : pystr)
    : result (option entry * batch_state) :=
  '(manifest_data, manifest_index) ← load_manifest fs manifest_path;
  match docs with
  | [] => Ok (None, BatchState [] [] manifest_index 0)
  | _ :: _ =>
      let st := main_loop table_index has_header docs manifest_index in
      match manifest_data with
      | JObj o =>
          saved ← save_manifest now o (batch_index st);
          Ok (Some saved, st)
      | _ => Raise TypeError
      end
  end.

Definition sample_input : input_doc :=
  InputDoc (py "doc.docx") sample_doc (py "2025-02-02T00:00:00+00:00").

(** ** Opening the document: [Document(docx_path)] *)

(** How a relationship of the document part stands in the package. When
    python-docx opens a document it reads the part behind every internal
    relationship from the archive, under the entry name [member] that the
    target resolves to (for the document part, the target taken relative
    to [word/]); the target of an external relationship, such as a linked
    picture or a hyperlink, is not read. *)
Inductive target_mode :=
  | Internal (member : pystr)
  | External.

Record package_rel := PackageRel { pr_rel : rel; pr_mode : target_mode }.

(** Reading the part of one relationship: the archive raises [KeyError]
    for an entry it does not have. *)
Definition load_part (z : zipfile) (rels : list rel) (r : package_rel)
    : result (list rel) :=
  match pr_mode r with
  | External => Ok (rels ++ [pr_rel r])
  | Internal member => _ ← z_open z member; Ok (rels ++ [pr_rel r])
  end.

(** [Document(docx_path)], as far as the relationships of the document part
    go: the value is [doc.part.rels]. *)
Definition Document (package : list package_rel) (z : zipfile)
    : result (list rel) :=
  foldM (load_part z) package [].

(** [extract_images_from_docx] from its first line on: the document is
    opened outside of any [try], then the relationships are resolved. *)
Definition extract_images_from_docx_path (package : list package_rel)
    (z : zipfile) (doc_basename : pystr)
    : result (gmap pystr pystr * list pystr) :=
  rels ← Document package z;
  extract_images_from_docx rels z doc_basename.

(** A package with two embedded pictures, of which the second one has no
    entry in the archive. *)
Definition broken_package : list package_rel :=
  [ PackageRel (Rel (py "rId1") image_reltype (py "media/image1.png"))
               (Internal (py "word/media/image1.png"));
    PackageRel (Rel (py "rId3") image_reltype (py "media/gone.jpeg"))
               (Internal (py "word/media/gone.jpeg")) ].

(** A manifest in which one entry has a number for a path. *)
Definition numeric_manifest : entry :=
  [ (py "generated_at", JStr (py "2024-01-01T00:00:00+00:00"));
    (py "files", JArr [ JObj [(py "path", JNum 5)];
                        JObj [(py "path", JStr (py "doc.json"))] ]) ].

Definition numeric_fs : filesystem :=
  {[ py "out/manifest.json" := Parsed (JObj numeric_manifest) ]}.

(** * Properties *)

(** ** Sanity checks of the string helpers *)

Example splitext_png :
  splitext (py "word/media/image1.png") = (py "word/media/image1", py ".png").
Proof. reflexivity. Qed.

Example splitext_hidden : splitext (py "word/.hidden") = (py "word/.hidden", []).
Proof. reflexivity. Qed.

Example splitext_dir_dot : splitext (py "word.d/image") = (py "word.d/image", []).
Proof. reflexivity. Qed.

Example fmt02_7 : fmt02 7 = py "07".
Proof. reflexivity. Qed.

Example fmt02_100 : fmt02 100 = py "100".
Proof. reflexivity. Qed.

Example normalize_plain : normalize (py "media/image1.png") = py "word/media/image1.png".
Proof. reflexivity. Qed.

Example normalize_absolute :
  normalize (py "/word/media/image1.png") = py "word/media/image1.png".
Proof. reflexivity. Qed.

Example normalize_outside : normalize (py "/media/image1.png") = py "word/media/image1.png".
Proof. reflexivity. Qed.

Example strip_spaces : strip ([160%N; 9%N] ++ py "a b" ++ [10%N; 8195%N]) = py "a b".
Proof. reflexivity. Qed.

(** ** Dictionaries *)

Section dict_facts.
Context {K : Type} `{EqDecision K} {V : Type}.
Implicit Types (d : list (K * V)) (k : K) (v : V).

Lemma dget_dset_eq k v d : dget k (dset k v d) = Some v.
Proof.
  induction d as [|[k' v'] d IH]; simpl.
  - by rewrite decide_True.
  - destruct (decide (k = k')) as [->|Hne]; simpl.
    + by rewrite decide_True.
    + by rewrite decide_False.
Qed.

Lemma dget_dset_ne k k' v d : k ≠ k' → dget k' (dset k v d) = dget k' d.
Proof.
  intros Hne. induction d as [|[k0 v0] d IH]; simpl.
  - by rewrite decide_False.
  - destruct (decide (k = k0)) as [->|Hne0]; simpl.
    + by rewrite !decide_False.
    + destruct (decide (k' = k0)); done.
Qed.

Lemma dget_None k d : dget k d = None ↔ k ∉ dkeys d.
Proof.
  unfold dkeys. induction d as [|[k0 v0] d IH]; simpl.
  - split; [intros _; apply not_elem_of_nil | done].
  - rewrite not_elem_of_cons. destruct (decide (k = k0)) as [->|Hne].
    + split; [done | intros [? _]; done].
    + rewrite IH. tauto.
Qed.

Lemma dget_Some_elem_of k v d : dget k d = Some v → (k, v) ∈ d.
Proof.
  induction d as [|[k0 v0] d IH]; simpl; [done|].
  destruct (decide (k = k0)) as [->|Hne].
  - intros [= ->]. apply list_elem_of_here.
  - intros Hd. apply list_elem_of_further. auto.
Qed.

Lemma elem_of_dget k v d : NoDup (dkeys d) → (k, v) ∈ d → dget k d = Some v.
Proof.
  unfold dkeys. induction d as [|[k0 v0] d IH]; simpl.
  - intros _ Hin. by apply elem_of_nil in Hin.
  - intros Hnd Hin. apply NoDup_cons in Hnd as [Hk0 Hnd].
    apply elem_of_cons in Hin as [[= -> ->]|Hin].
    + by rewrite decide_True.
    + rewrite decide_False; [by apply IH|].
      intros ->. apply Hk0. apply list_elem_of_fmap. by exists (k0, v).
Qed.

Lemma dkeys_dset k v d :
  dkeys (dset k v d) = if dget k d is Some _ then dkeys d else dkeys d ++ [k].
Proof.
  unfold dkeys. induction d as [|[k0 v0] d IH]; csimpl; [done|].
  destruct (decide (k = k0)) as [->|Hne]; csimpl; [done|].
  rewrite IH. by destruct (dget k d).
Qed.

Lemma NoDup_dkeys_dset k v d : NoDup (dkeys d) → NoDup (dkeys (dset k v d)).
Proof.
  intros Hnd. rewrite dkeys_dset. destruct (dget k d) eqn:Hk; [done|].
  apply NoDup_app. split_and!; [done| |apply NoDup_singleton].
  intros x Hx ->%list_elem_of_singleton. by apply dget_None in Hk.
Qed.

End dict_facts.

(** ** Image resolver *)

Lemma relid_to_target_NoDup rels : NoDup (dkeys (relid_to_target rels)).
Proof.
  unfold relid_to_target.
  assert (∀ d, NoDup (dkeys d) →
    NoDup (dkeys (fold_left (fun d (r : rel) =>
       if contains (py "image") (reltype r)
       then dset (rId r) (target_ref r) d else d) rels d))) as Hgen.
  { induction rels as [|r rels IH]; intros d Hd; simpl; [done|].
    apply IH. destruct (contains _ _); [by apply NoDup_dkeys_dset | done]. }
  apply Hgen, NoDup_nil_2.
Qed.

Lemma first_seen_snoc l p : first_seen (l ++ [p]) = see (first_seen l) p.
Proof. unfold first_seen. by rewrite fold_left_app. Qed.

Lemma zip_paths_snoc items item :
  zip_paths (items ++ [item]) = zip_paths items ++ [normalize (snd item)].
Proof. unfold zip_paths. by rewrite fmap_app. Qed.

Lemma written_of_snoc z base paths p :
  written_of z base (paths ++ [p]) =
  written_of z base paths ++
    match z !! p with
    | Some c => [(image_name base (S (length paths)) p, c)]
    | None => []
    end.
Proof.
  unfold written_of. rewrite imap_app, omap_app. f_equal.
  simpl. rewrite Nat.add_0_r. by destruct (z !! p).
Qed.

Lemma first_seen_NoDup l : NoDup (first_seen l).
Proof.
  induction l as [|p l IH] using rev_ind; [apply NoDup_nil_2|].
  rewrite first_seen_snoc. unfold see. case_decide; [done|].
  apply NoDup_app. split_and!; [done| |apply NoDup_singleton].
  by intros x Hx ->%list_elem_of_singleton.
Qed.

Lemma elem_of_first_seen l p : p ∈ first_seen l ↔ p ∈ l.
Proof.
  induction l as [|q l IH] using rev_ind; [done|].
  rewrite first_seen_snoc, elem_of_app, list_elem_of_singleton, <- IH.
  unfold see. case_decide.
  - split; [tauto | intros [?| ->]; done].
  - by rewrite elem_of_app, list_elem_of_singleton.
Qed.

Lemma resolver_inv_init z base : resolver_inv z base [] resolver_init.
Proof.
  split; simpl; try done.
  - apply NoDup_nil_2.
  - intros p. split; [intros _; apply not_elem_of_nil | intros _; apply lookup_empty].
  - intros rid t Hin. by apply elem_of_nil in Hin.
  - intros n. split; [intros Hn; by apply elem_of_empty in Hn|].
    intros [rid Hrid]. by rewrite lookup_empty in Hrid.
Qed.

(** Reuse of a path that was already looked at: nothing but the image map
    and the set of names can change. *)
Lemma resolve_rel_reuse z base st item v :
  target_to_final st !! normalize (snd item) = Some v →
  ∃ st', resolve_rel z base st item = Ok st'
    ∧ counter st' = counter st ∧ opened st' = opened st
    ∧ written st' = written st ∧ target_to_final st' = target_to_final st
    ∧ image_map st' =
        match v with
        | Some name => <[fst item := name]> (image_map st)
        | None => image_map st
        end
    ∧ all_final_names st' =
        match v with
        | Some name => {[name]} ∪ all_final_names st
        | None => all_final_names st
        end.
Proof.
  intros Hv. unfold resolve_rel, lookup_or_copy. rewrite Hv. simpl.
  destruct v as [name|]; eexists; (split; [reflexivity|]); simpl; done.
Qed.

(** First sight of a path: the counter moves on and the outcome is
    cached, whether or not the archive has the entry. *)
Lemma resolve_rel_fresh z base st item :
  target_to_final st !! normalize (snd item) = None →
  ∃ st', resolve_rel z base st item = Ok st'
    ∧ counter st' = S (counter st)
    ∧ opened st' = opened st ++ [normalize (snd item)]
    ∧ target_to_final st' =
        <[normalize (snd item) :=
            (fun _ => image_name base (counter st) (normalize (snd item)))
              <$> z !! normalize (snd item)]> (target_to_final st)
    ∧ written st' = written st ++
        match z !! normalize (snd item) with
        | Some c => [(image_name base (counter st) (normalize (snd item)), c)]
        | None => []
        end
    ∧ image_map st' =
        match z !! normalize (snd item) with
        | Some _ => <[fst item :=
                       image_name base (counter st) (normalize (snd item))]>
                      (image_map st)
        | None => image_map st
        end
    ∧ all_final_names st' =
        match z !! normalize (snd item) with
        | Some _ => {[image_name base (counter st) (normalize (snd item))]}
                    ∪ all_final_names st
        | None => all_final_names st
        end.
Proof.
  intros Hv. unfold resolve_rel, lookup_or_copy, copy_entry, z_open.
  rewrite Hv. simpl.
  destruct (z !! normalize (snd item)) as [c|]; simpl;
    eexists; (split; [reflexivity|]); simpl; rewrite ?app_nil_r; done.
Qed.

(** Membership in the set of names follows the image map. *)
Lemma names_insert (im : gmap pystr pystr) (names : gset pystr) rid name :
  im !! rid = None →
  (∀ n, n ∈ names ↔ ∃ r, im !! r = Some n) →
  ∀ n, n ∈ ({[name]} ∪ names : gset pystr) ↔ ∃ r, <[rid := name]> im !! r = Some n.
Proof.
  intros Hrid Hnames n. rewrite elem_of_union, elem_of_singleton, Hnames. split.
  - intros [-> | [r Hr]].
    + exists rid. by rewrite lookup_insert_eq.
    + exists r. rewrite lookup_insert_ne; [done|]. intros ->. congruence.
  - intros [r Hr]. destruct (decide (rid = r)) as [->|Hne].
    + rewrite lookup_insert_eq in Hr. left. congruence.
    + rewrite lookup_insert_ne in Hr by done. right. by exists r.
Qed.

Lemma resolve_rel_inv z base processed st item :
  resolver_inv z base processed st →
  fst item ∉ (fst <$> processed) →
  ∃ st', resolve_rel z base st item = Ok st'
         ∧ resolver_inv z base (processed ++ [item]) st'.
Proof.
  intros Hinv Hfresh. destruct item as [rid t]. simpl in Hfresh.
  set (p := normalize t).
  assert (Hrid : image_map st !! rid = None) by by apply (inv_map_dom _ _ _ _ Hinv).
  destruct (target_to_final st !! p) as [v|] eqn:Httf.
  - (* the path was seen before *)
    destruct (resolve_rel_reuse z base st (rid, t) v Httf)
      as (st' & Hst' & Hc & Ho & Hw & Ht & Hm & Hn).
    exists st'. split; [done|]. simpl in Hm.
    assert (Hp : p ∈ opened st).
    { destruct (decide (p ∈ opened st)) as [|Hnp]; [done|].
      apply (inv_ttf_dom _ _ _ _ Hinv) in Hnp. congruence. }
    apply list_elem_of_lookup in Hp as [i Hi].
    assert (Hv : v = outcome z base i p).
    { pose proof (inv_ttf _ _ _ _ Hinv i p Hi) as Hx. congruence. }
    split.
    + rewrite Ho, zip_paths_snoc, first_seen_snoc. simpl. fold p.
      rewrite <- (inv_opened _ _ _ _ Hinv). unfold see.
      rewrite decide_True; [done|]. by eapply list_elem_of_lookup_2.
    + rewrite Hc, Ho. apply Hinv.
    + rewrite Ho. apply Hinv.
    + intros q. rewrite Ht, Ho. apply Hinv.
    + intros j q. rewrite Ht, Ho. apply Hinv.
    + intros rid' t' [Hin | [= -> ->]%list_elem_of_singleton]%elem_of_app.
      * destruct (inv_map _ _ _ _ Hinv rid' t' Hin) as (j & Hj & Hmj).
        exists j. rewrite Ho. split; [done|].
        assert (rid' ≠ rid).
        { intros ->. apply Hfresh. apply list_elem_of_fmap. by exists (rid, t'). }
        rewrite Hm. destruct v; [by rewrite lookup_insert_ne|done].
      * exists i. rewrite Ho. split; [done|]. fold p. rewrite Hm, <- Hv.
        destruct v; [by rewrite lookup_insert_eq|done].
    + intros rid' Hrid'. rewrite fmap_app, not_elem_of_app in Hrid'.
      destruct Hrid' as [Hr1 Hr2]. simpl in Hr2.
      rewrite list_elem_of_singleton in Hr2.
      rewrite Hm. destruct v; [rewrite lookup_insert_ne; [|done]|];
        by apply (inv_map_dom _ _ _ _ Hinv).
    + rewrite Hw, Ho. apply Hinv.
    + rewrite Hm, Hn. destruct v; [|apply Hinv].
      apply names_insert; [done | apply Hinv].
  - (* first sight of the path *)
    destruct (resolve_rel_fresh z base st (rid, t) Httf)
      as (st' & Hst' & Hc & Ho & Ht & Hw & Hm & Hn).
    exists st'. split; [done|]. simpl in *. fold p in Ho, Ht, Hw, Hm, Hn.
    assert (Hp : p ∉ opened st) by by apply (inv_ttf_dom _ _ _ _ Hinv).
    pose proof (inv_counter _ _ _ _ Hinv) as Hcnt.
    split.
    + rewrite Ho, zip_paths_snoc, first_seen_snoc. simpl. fold p.
      rewrite <- (inv_opened _ _ _ _ Hinv). unfold see.
      by rewrite decide_False.
    + rewrite Hc, Ho, length_app, Hcnt. simpl. lia.
    + rewrite Ho. apply NoDup_app. split_and!; [apply Hinv| |apply NoDup_singleton].
      by intros x Hx ->%list_elem_of_singleton.
    + intros q. rewrite Ht, Ho, not_elem_of_app, list_elem_of_singleton.
      destruct (decide (p = q)) as [<-|Hne].
      * rewrite lookup_insert_eq. split; [done | intros [_ ?]; done].
      * rewrite lookup_insert_ne by done.
        rewrite (inv_ttf_dom _ _ _ _ Hinv). split; [intros ?; split; congruence | tauto].
    + intros j q Hj. rewrite Ho in Hj. rewrite Ht.
      apply lookup_app_Some in Hj as [Hj | [Hlen Hj]].
      * rewrite lookup_insert_ne; [by apply Hinv|].
        intros <-. apply Hp. by eapply list_elem_of_lookup_2.
      * apply list_lookup_singleton_Some in Hj as [Hj <-].
        rewrite lookup_insert_eq. f_equal. unfold outcome.
        replace j with (length (opened st)) by lia. rewrite Hcnt.
        by destruct (z !! p).
    + intros rid' t' [Hin | [= -> ->]%list_elem_of_singleton]%elem_of_app.
      * destruct (inv_map _ _ _ _ Hinv rid' t' Hin) as (j & Hj & Hmj).
        exists j. rewrite Ho. split; [by apply lookup_app_l_Some|].
        assert (rid' ≠ rid).
        { intros ->. apply Hfresh. apply list_elem_of_fmap. by exists (rid, t'). }
        rewrite Hm. destruct (z !! p); [by rewrite lookup_insert_ne|done].
      * exists (length (opened st)). rewrite Ho. split.
        { rewrite lookup_app_r by lia. by rewrite Nat.sub_diag. }
        fold p. rewrite Hm. unfold outcome. rewrite Hcnt.
        destruct (z !! p); [by rewrite lookup_insert_eq|done].
    + intros rid' Hrid'. rewrite fmap_app, not_elem_of_app in Hrid'.
      destruct Hrid' as [Hr1 Hr2]. simpl in Hr2.
      rewrite list_elem_of_singleton in Hr2.
      rewrite Hm. destruct (z !! p); [rewrite lookup_insert_ne; [|done]|];
        by apply (inv_map_dom _ _ _ _ Hinv).
    + rewrite Hw, Ho, written_of_snoc, (inv_written _ _ _ _ Hinv), Hcnt. done.
    + rewrite Hm, Hn. destruct (z !! p); [|apply Hinv].
      apply names_insert; [done | apply Hinv].
Qed.

Lemma run_resolver_inv z base items processed st :
  resolver_inv z base processed st →
  NoDup (fst <$> (processed ++ items)) →
  ∃ st', foldM (resolve_rel z base) items st = Ok st'
         ∧ resolver_inv z base (processed ++ items) st'.
Proof.
  revert processed st.
  induction items as [|item items IH]; intros processed st Hinv Hnd; simpl.
  - exists st. by rewrite app_nil_r.
  - assert (Hfresh : fst item ∉ (fst <$> processed)).
    { rewrite fmap_app in Hnd. apply NoDup_app in Hnd as (_ & Hdisj & _).
      intros Hin. apply (Hdisj _ Hin). csimpl. apply list_elem_of_here. }
    destruct (resolve_rel_inv z base processed st item Hinv Hfresh)
      as (st1 & Hst1 & Hinv1).
    rewrite Hst1. simpl.
    replace (processed ++ item :: items) with ((processed ++ [item]) ++ items)
      in * by by rewrite <- app_assoc.
    by apply IH.
Qed.

(** The resolver always terminates normally, in a state that satisfies
    the invariant for all image relationships of the document. *)
Lemma run_resolver_ok rels z base :
  ∃ st, run_resolver z base (relid_to_target rels) = Ok st
        ∧ resolver_inv z base (relid_to_target rels) st.
Proof.
  unfold run_resolver.
  apply (run_resolver_inv z base (relid_to_target rels) [] resolver_init).
  - apply resolver_inv_init.
  - apply relid_to_target_NoDup.
Qed.

Example sample_run :
  extract_images_from_docx sample_rels sample_zip (py "doc") =
  Ok ({[ py "rId1" := py "doc_Image01.png"; py "rId2" := py "doc_Image01.png";
         py "rId5" := py "doc_Image03.bin" ]},
      [py "doc_Image01.png"; py "doc_Image03.bin"]).
Proof. vm_compute. reflexivity. Qed.

Example many_run_100 :
  (λ r, match r with Ok (im, _) => im !! py "rId100" | Raise _ => None end)
    (extract_images_from_docx (many_rels 100) (many_zip 100) (py "doc"))
  = Some (py "doc_Image100.png").
Proof. vm_compute. reflexivity. Qed.

(** What a complete run of the resolver leaves behind, in terms of the
    document's image relationships. *)
Lemma resolver_final rels z base :
  ∃ st,
    run_resolver z base (relid_to_target rels) = Ok st
    ∧ extract_images_from_docx rels z base
      = Ok (image_map st, sorted_by str_lt (elements (all_final_names st)))
    ∧ opened st = first_seen (zip_paths (relid_to_target rels))
    ∧ counter st = S (length (opened st))
    ∧ written st = written_of z base (opened st)
    ∧ (∀ rid t, dget rid (relid_to_target rels) = Some t →
         ∃ k, opened st !! k = Some (normalize t)
              ∧ image_map st !! rid = outcome z base k (normalize t))
    ∧ (∀ rid, dget rid (relid_to_target rels) = None → image_map st !! rid = None).
Proof.
  destruct (run_resolver_ok rels z base) as (st & Hrun & Hinv).
  exists st. split_and!; try apply Hinv; try done.
  - unfold extract_images_from_docx. by rewrite Hrun.
  - intros rid t Hget. apply (inv_map _ _ _ _ Hinv). by apply dget_Some_elem_of.
  - intros rid Hget. apply (inv_map_dom _ _ _ _ Hinv). by apply dget_None.
Qed.

Lemma fmt02_length_ge n : 2 ≤ length (fmt02 n).
Proof. unfold fmt02. rewrite length_app, length_replicate. lia. Qed.

Lemma fmt02_length_two n : n < 100 → length (fmt02 n) = 2.
Proof.
  intros Hn.
  assert (Hall : forallb (fun k => length (fmt02 k) =? 2) (seq 0 100) = true)
    by (vm_compute; reflexivity).
  rewrite forallb_forall in Hall.
  apply Nat.eqb_eq, Hall, in_seq. lia.
Qed.

(** A number with at most two decimal digits is below 100. *)
Lemma short_uint_small (u : Decimal.uint) :
  length (digits_of_uint u) ≤ 2 → Nat.of_uint u < 100.
Proof.
  intros Hlen.
  destruct u as [|u|u|u|u|u|u|u|u|u|u]; [vm_compute; lia|..];
    (destruct u as [|u|u|u|u|u|u|u|u|u|u]; [vm_compute; lia|..];
     (destruct u as [|u|u|u|u|u|u|u|u|u|u]; [vm_compute; lia|..];
      simpl in Hlen; lia)).
Qed.

Lemma fmt02_length_three n : 100 ≤ n → 3 ≤ length (fmt02 n).
Proof.
  intros Hn. unfold fmt02. rewrite length_app, length_replicate.
  destruct (decide (length (str_of_nat n) ≤ 2)) as [Hshort|]; [|lia].
  apply short_uint_small in Hshort.
  rewrite DecimalNat.Unsigned.of_to in Hshort. lia.
Qed.



(** C2 (as amended): the filename assigned to a relationship whose entry
    is in the container is [<basename>_Image<NN><ext>], where [<ext>] is
    the extension of the container path ([.bin] when it has none) and NN
    is the 1-based position of the path among the distinct container paths
    in first-seen order, written in decimal and zero-padded to a width of
    at least two: exactly two digits while the number is below 100, three
    or more from 100 on. *)
Theorem filename_pattern rels z base rid t :
  dget rid (relid_to_target rels) = Some t →
  is_Some (z !! normalize t) →
  ∃ im files k,
    extract_images_from_docx rels z base = Ok (im, files)
    ∧ first_seen (zip_paths (relid_to_target rels)) !! k = Some (normalize t)
    ∧ im !! rid
      = Some (base ++ py "_Image" ++ fmt02 (S k) ++ ext_of (normalize t))
    ∧ ext_of (normalize t)
      = (if negb (nonempty (snd (splitext (normalize t)))) then py ".bin"
         else snd (splitext (normalize t)))
    ∧ fmt02 (S k)
      = replicate (2 - length (str_of_nat (S k))) 48%N ++ str_of_nat (S k)
    ∧ 2 ≤ length (fmt02 (S k))
    ∧ (S k < 100 → length (fmt02 (S k)) = 2)
    ∧ (100 ≤ S k → 3 ≤ length (fmt02 (S k))).
Proof.
  intros Hget [c Hc].
  destruct (resolver_final rels z base)
    as (st & Hrun & Hext & Hop & Hcnt & Hwr & Hmap & Hdom).
  destruct (Hmap _ _ Hget) as (k & Hk & Him).
  exists (image_map st), (sorted_by str_lt (elements (all_final_names st))), k.
  split_and!; try done.
  - by rewrite <- Hop.
  - rewrite Him. unfold outcome. by rewrite Hc.
  - apply fmt02_length_ge.
  - apply fmt02_length_two.
  - apply fmt02_length_three.
Qed.

Lemma filename_pattern_witness :
  dget (py "rId5") (relid_to_target sample_rels) = Some (py "media/chart")
  ∧ is_Some (sample_zip !! normalize (py "media/chart"))
  ∧ ∃ im files,
      extract_images_from_docx sample_rels sample_zip (py "doc") = Ok (im, files)
      ∧ im !! py "rId5" = Some (py "doc_Image03.bin").
Proof.
  split; [reflexivity|]. split; [by eexists|].
  destruct (filename_pattern sample_rels sample_zip (py "doc") (py "rId5")
              (py "media/chart"))
    as (im & files & k & Hext & Hk & Him & _); [reflexivity | by eexists |].
  exists im, files. split; [exact Hext|].
  assert (k = 2) as ->.
  { eapply NoDup_lookup; [apply first_seen_NoDup | exact Hk | reflexivity]. }
  exact Him.
Defined.

(** C2 as stated fails: in a document with 100 distinct pictures the
    hundredth filename carries a three-digit number, so no two-digit NN
    fits the pattern. *)
Lemma filename_two_digits_counterexample :
  (∃ im files,
     extract_images_from_docx (many_rels 100) (many_zip 100) (py "doc")
       = Ok (im, files)
     ∧ im !! py "rId100" = Some (py "doc_Image100.png"))
  ∧ ¬ ∃ im files (nn : pystr),
        extract_images_from_docx (many_rels 100) (many_zip 100) (py "doc")
          = Ok (im, files)
        ∧ length nn = 2
        ∧ im !! py "rId100"
          = Some (py "doc" ++ py "_Image" ++ nn
                  ++ ext_of (normalize (py "media/image100.png"))).
Proof.
  pose proof many_run_100 as Hx.
  destruct (extract_images_from_docx (many_rels 100) (many_zip 100) (py "doc"))
    as [[im files]|e]; [|discriminate Hx].
  split.
  - by exists im, files.
  - intros (im' & files' & nn & [= <- <-] & Hlen & Hnn).
    rewrite Hx in Hnn.
    destruct nn as [|a [|b [|? ?]]]; try discriminate Hlen.
    vm_compute in Hnn. discriminate Hnn.
Qed.

(** A drawing whose relationship identifier is not in the index adds
    nothing to the output of the run renderer. *)
Lemma drawing_step_unresolved (im : gmap pystr pystr) out d :
  (∀ b rid, drawing_blip d = Some b → embed b = Some rid → im !! rid = None) →
  drawing_step im out d = out.
Proof.
  intros Hd. unfold drawing_step.
  destruct (drawing_blip d) as [b|]; [|done].
  destruct (embed b) as [rid|] eqn:Hrid; [|done].
  by rewrite (Hd b rid).
Qed.

(** X15: once the document has been opened, the loop over its image
    relationships does not raise, and a relationship whose normalised
    path is not in the container (the target of an external relationship,
    or a target that the normalisation does not resolve to the name of its
    part) gets no entry in the returned image map; and a drawing whose
    relationship identifier is not in the index (this one, or any other)
    adds no placeholder: the renderer, a total function, returns its
    output unchanged. *)
Theorem missing_target_skipped rels z base rid t :
  dget rid (relid_to_target rels) = Some t →
  z !! normalize t = None →
  ∃ im files,
    extract_images_from_docx rels z base = Ok (im, files)
    ∧ im !! rid = None
    ∧ (∀ out, drawing_step im out (Drawing (Some (Blip (Some rid)))) = out)
    ∧ (∀ (im' : gmap pystr pystr) out d,
         (∀ b rid', drawing_blip d = Some b → embed b = Some rid' →
                    im' !! rid' = None) →
         drawing_step im' out d = out)
    ∧ (∀ (im' : gmap pystr pystr) txt,
         im' !! rid = None →
         extract_paragraph_with_images
           (Paragraph [Run [Drawing (Some (Blip (Some rid)))] txt] None) im'
         = []).
Proof.
  intros Hget Hz.
  destruct (resolver_final rels z base)
    as (st & Hrun & Hext & Hop & Hcnt & Hwr & Hmap & Hdom).
  destruct (Hmap _ _ Hget) as (k & Hk & Him).
  unfold outcome in Him. rewrite Hz in Him.
  exists (image_map st), (sorted_by str_lt (elements (all_final_names st))).
  split_and!; [done | done | | |].
  - intros out. apply drawing_step_unresolved. simpl. by intros b r [= <-] [= <-].
  - intros im' out d. apply drawing_step_unresolved.
  - intros im' txt Him'. unfold extract_paragraph_with_images.
    change (fold_left (run_step im') _ [])
      with (drawing_step im' [] (Drawing (Some (Blip (Some rid))))).
    rewrite drawing_step_unresolved; [reflexivity|].
    simpl. by intros b r [= <-] [= <-].
Qed.

Lemma missing_target_skipped_witness :
  dget (py "rId3") (relid_to_target sample_rels) = Some (py "media/gone.jpeg")
  ∧ sample_zip !! normalize (py "media/gone.jpeg") = None
  ∧ ∃ im files,
      extract_images_from_docx sample_rels sample_zip (py "doc") = Ok (im, files)
      ∧ im !! py "rId3" = None.
Proof.
  split; [reflexivity|]. split; [reflexivity|].
  destruct (missing_target_skipped sample_rels sample_zip (py "doc") (py "rId3")
              (py "media/gone.jpeg"))
    as (im & files & Hext & Him & _); [reflexivity | reflexivity |].
  exists im, files. split; [exact Hext | exact Him].
Defined.

(** Opening a document raises nothing but [KeyError]. *)
Lemma load_part_Raise z rels r e : load_part z rels r = Raise e → e = KeyError.
Proof.
  unfold load_part, z_open. destruct (pr_mode r) as [member|]; [|done].
  destruct (z !! member); [done|]. by intros [= <-].
Qed.

Lemma Document_missing_part z package rels r member :
  r ∈ package → pr_mode r = Internal member → z !! member = None →
  foldM (load_part z) package rels = Raise KeyError.
Proof.
  intros Hin Hmode Hz. revert rels.
  induction package as [|x package IH]; intros rels; [by apply elem_of_nil in Hin|].
  simpl. apply elem_of_cons in Hin as [<-|Hin].
  - unfold load_part, z_open. by rewrite Hmode, Hz.
  - destruct (load_part z rels x) as [rels'|e] eqn:Hx; simpl.
    + by apply IH.
    + by rewrite (load_part_Raise _ _ _ _ Hx).
Qed.

(** C4: the first half of the claim fails where the document is opened.
    When a relationship of the document part is internal and the archive
    has no entry for its part, [Document(docx_path)], the first statement
    of [extract_images_from_docx], raises [KeyError]; that statement
    stands outside the [try] block, so the function raises instead of
    skipping the relationship, whatever the other relationships are. *)
Theorem missing_part_raises package z base r member :
  r ∈ package → pr_mode r = Internal member → z !! member = None →
  Document package z = Raise KeyError
  ∧ extract_images_from_docx_path package z base = Raise KeyError.
Proof.
  intros Hin Hmode Hz.
  pose proof (Document_missing_part z package [] r member Hin Hmode Hz) as Hdoc.
  split; [exact Hdoc|].
  unfold extract_images_from_docx_path, Document. by rewrite Hdoc.
Qed.

Lemma missing_part_raises_witness :
  sample_zip !! py "word/media/gone.jpeg" = None
  ∧ normalize (py "media/gone.jpeg") = py "word/media/gone.jpeg"
  ∧ extract_images_from_docx_path broken_package sample_zip (py "doc")
    = Raise KeyError.
Proof.
  split; [vm_compute; reflexivity|]. split; [reflexivity|].
  destruct (missing_part_raises broken_package sample_zip (py "doc")
              (PackageRel (Rel (py "rId3") image_reltype (py "media/gone.jpeg"))
                          (Internal (py "word/media/gone.jpeg")))
              (py "word/media/gone.jpeg")) as [_ Hraise].
  - apply list_elem_of_further, list_elem_of_here.
  - reflexivity.
  - vm_compute. reflexivity.
  - exact Hraise.
Defined.

(** C10: when a path is met for the first time and the container has no
    such entry, the step still uses up the current sequence number (the
    counter moves on, nothing is written, the image map is unchanged) and
    caches the failure; a later relationship with the same path leaves the
    whole state as it is (no new attempt, no number, no map entry); and
    the next new path that is present gets the number after the consumed
    one.  Over a whole run the counter ends one past the number of
    distinct paths, missing ones included. *)
Theorem missing_entry_consumes_number z base st item :
  target_to_final st !! normalize (snd item) = None →
  z !! normalize (snd item) = None →
  ∃ st1,
    resolve_rel z base st item = Ok st1
    ∧ counter st1 = S (counter st)
    ∧ opened st1 = opened st ++ [normalize (snd item)]
    ∧ written st1 = written st
    ∧ image_map st1 = image_map st
    ∧ target_to_final st1 !! normalize (snd item) = Some None
    ∧ (∀ item', normalize (snd item') = normalize (snd item) →
         resolve_rel z base st1 item' = Ok st1)
    ∧ (∀ item2 c,
         target_to_final st1 !! normalize (snd item2) = None →
         z !! normalize (snd item2) = Some c →
         ∃ st2, resolve_rel z base st1 item2 = Ok st2
           ∧ image_map st2 !! fst item2
             = Some (image_name base (S (counter st)) (normalize (snd item2))))
    ∧ (∀ rels, ∃ stf,
         run_resolver z base (relid_to_target rels) = Ok stf
         ∧ counter stf = S (length (first_seen (zip_paths (relid_to_target rels))))
         ∧ opened stf = first_seen (zip_paths (relid_to_target rels))
         ∧ ∀ rid t, dget rid (relid_to_target rels) = Some t →
                    z !! normalize t = None → image_map stf !! rid = None).
Proof.
  intros Httf Hz.
  destruct (resolve_rel_fresh z base st item Httf)
    as (st1 & Hst1 & Hc & Ho & Ht & Hw & Hm & Hn).
  rewrite Hz in *. simpl in *.
  exists st1. split_and!; try done.
  - by rewrite Hw, app_nil_r.
  - by rewrite Ht, lookup_insert_eq.
  - intros item' Hsame.
    assert (Hcached : target_to_final st1 !! normalize (snd item') = Some None)
      by by rewrite Hsame, Ht, lookup_insert_eq.
    unfold resolve_rel, lookup_or_copy. by rewrite Hcached.
  - intros item2 c Hnew Hc2.
    destruct (resolve_rel_fresh z base st1 item2 Hnew)
      as (st2 & Hst2 & _ & _ & _ & _ & Hm2 & _).
    exists st2. split; [done|].
    by rewrite Hm2, Hc2, lookup_insert_eq, Hc.
  - intros rels.
    destruct (resolver_final rels z base)
      as (stf & Hrun & Hext & Hop & Hcnt & Hwr & Hmap & Hdom).
    exists stf. split_and!; try done.
    + by rewrite Hcnt, Hop.
    + intros rid t Hget Hzt. destruct (Hmap _ _ Hget) as (k & Hk & ->).
      unfold outcome. by rewrite Hzt.
Qed.

Lemma missing_entry_consumes_number_witness :
  target_to_final resolver_init !! normalize (py "media/gone.jpeg") = None
  ∧ sample_zip !! normalize (py "media/gone.jpeg") = None
  ∧ ∃ st1,
      resolve_rel sample_zip (py "doc") resolver_init
        (py "rId3", py "media/gone.jpeg") = Ok st1
      ∧ counter st1 = 2
      ∧ image_map st1 = ∅.
Proof.
  split; [reflexivity|]. split; [reflexivity|].
  destruct (missing_entry_consumes_number sample_zip (py "doc") resolver_init
              (py "rId3", py "media/gone.jpeg"))
    as (st1 & Hst1 & Hc & _ & _ & Hm & _); [reflexivity | reflexivity |].
  exists st1. split; [exact Hst1|]. split; [exact Hc | exact Hm].
Defined.

(** ** Strings *)

Lemma join_nil_concat (l : list pystr) : join [] l = concat l.
Proof.
  induction l as [|x [|y l] IH]; simpl in *; [done| |].
  - by rewrite app_nil_r.
  - by rewrite IH.
Qed.

Lemma drop_while_nil_iff {A} (f : A → bool) l :
  drop_while f l = [] ↔ Forall (fun x => f x = true) l.
Proof.
  induction l as [|x l IH]; simpl.
  - split; [intros _; apply Forall_nil_2 | done].
  - destruct (f x) eqn:Hx.
    + rewrite IH. split; [intros ?; by apply Forall_cons | by intros [_ ?]%Forall_cons].
    + split; [done | intros [? _]%Forall_cons; congruence].
Qed.

Lemma visible_drop_while s : visible (drop_while isspace s) ↔ visible s.
Proof.
  unfold visible. induction s as [|c s IH]; simpl; [done|].
  destruct (isspace c) eqn:Hc.
  - rewrite IH, Exists_cons. split; [tauto | intros [?|?]; [congruence | done]].
  - done.
Qed.

Lemma visible_reverse s : visible (reverse s) ↔ visible s.
Proof. unfold visible. by rewrite !Exists_exists; setoid_rewrite elem_of_reverse. Qed.

Lemma visible_strip s : visible (strip s) ↔ visible s.
Proof.
  unfold strip, rstrip, lstrip.
  by rewrite visible_reverse, visible_drop_while, visible_reverse,
             visible_drop_while.
Qed.

Lemma not_visible_drop_while s : ¬ visible s → drop_while isspace s = [].
Proof.
  intros Hs. apply drop_while_nil_iff. apply Forall_forall. intros c Hc.
  destruct (isspace c) eqn:Hsp; [done|].
  exfalso. apply Hs. apply Exists_exists. eauto.
Qed.

Lemma visible_nonempty s : visible s → nonempty s = true.
Proof. intros Hs. destruct s; [by apply Exists_nil in Hs | done]. Qed.

Lemma drop_while_split {A} (f : A → bool) l :
  ∃ a, l = a ++ drop_while f l ∧ Forall (fun x => f x = true) a.
Proof.
  induction l as [|x l (a & Hl & Ha)]; simpl.
  - by exists [].
  - destruct (f x) eqn:Hx.
    + exists (x :: a). split; [by rewrite Hl at 1 | by apply Forall_cons].
    + by exists [].
Qed.

Lemma drop_while_head {A} (f : A → bool) l x :
  head (drop_while f l) = Some x → f x = false.
Proof.
  induction l as [|y l IH]; simpl; [done|].
  destruct (f y) eqn:Hy; [done|]. by intros [= <-].
Qed.

(** [strip] removes whitespace, and only whitespace, from both ends. *)
Lemma strip_split s :
  ∃ a b, s = a ++ strip s ++ b
         ∧ Forall (fun c => isspace c = true) a
         ∧ Forall (fun c => isspace c = true) b.
Proof.
  unfold strip, rstrip, lstrip.
  destruct (drop_while_split isspace s) as (a & Hs & Ha).
  destruct (drop_while_split isspace (reverse (drop_while isspace s)))
    as (b & Hr & Hb).
  exists a, (reverse b). split_and!; [|done|by apply Forall_reverse].
  rewrite <- reverse_app, <- Hr, reverse_involutive. done.
Qed.

Lemma strip_last s c : last (strip s) = Some c → isspace c = false.
Proof.
  unfold strip, rstrip. rewrite last_reverse. apply drop_while_head.
Qed.

Lemma strip_head s c : head (strip s) = Some c → isspace c = false.
Proof.
  unfold strip. intros Hc.
  destruct (drop_while_split isspace (reverse (lstrip s))) as (b & Hr & Hb).
  fold (rstrip (lstrip s)) in Hc.
  assert (Hl : lstrip s = rstrip (lstrip s) ++ reverse b).
  { unfold rstrip. by rewrite <- reverse_app, <- Hr, reverse_involutive. }
  apply (drop_while_head isspace s). fold (lstrip s). rewrite Hl.
  destruct (rstrip (lstrip s)); [done|]. exact Hc.
Qed.

(** Trimming leaves something exactly when the string has a character
    that is not whitespace. *)
Lemma nonempty_strip s : nonempty (strip s) = true ↔ visible s.
Proof.
  split.
  - intros Hne. apply visible_strip.
    destruct (decide (visible (strip s))) as [|Hn]; [done|].
    unfold strip, rstrip in *. set (l := lstrip s) in *.
    rewrite visible_reverse, visible_drop_while in Hn.
    apply not_visible_drop_while in Hn. by rewrite Hn in Hne.
  - intros Hs. by apply visible_nonempty, visible_strip.
Qed.

Lemma nonempty_strip_strip s : nonempty (strip (strip s)) = nonempty (strip s).
Proof.
  apply eq_true_iff_eq. by rewrite !nonempty_strip, visible_strip.
Qed.

(** ** Run renderer *)

Example sample_parse :
  parse_docx_table_with_images sample_doc (py "doc") 0 true =
  Ok ([ Card (py "Cats")
             (bullet ++ py "item1" ++ [10%N] ++ [9%N] ++ bullet ++ py "item2"
              ++ [10%N] ++ bullet ++ py "item3");
        Card (py "Dogs and more") (py "see [[image:doc_Image01.png]]");
        Card [] (py "see") ],
      [py "doc_Image01.png"; py "doc_Image03.bin"]).
Proof. vm_compute. reflexivity. Qed.

Lemma fold_drawing_step im ds out :
  fold_left (drawing_step im) ds out
  = out ++ (placeholder <$> omap (resolved im) ds).
Proof.
  revert out. induction ds as [|d ds IH]; intros out; csimpl.
  - by rewrite app_nil_r.
  - rewrite IH. unfold drawing_step, resolved, drawing_rid.
    destruct (drawing_blip d) as [b|]; [|done].
    destruct (embed b) as [rid|]; [|done].
    destruct (im !! rid); csimpl; [|done].
    by rewrite <- app_assoc.
Qed.

Lemma run_step_concat im out r :
  concat (run_step im out r) = concat out ++ spec_run_contribution im r.
Proof.
  unfold run_step, spec_run_contribution.
  destruct (run_drawings r) as [|d ds] eqn:Hds.
  - destruct (run_text r) as [|c s]; simpl.
    + by rewrite app_nil_r.
    + rewrite concat_app. simpl. by rewrite app_nil_r.
  - by rewrite fold_drawing_step, concat_app.
Qed.

Lemma fold_run_step_concat im rs out :
  concat (fold_left (run_step im) rs out)
  = concat out ++ concat (spec_run_contribution im <$> rs).
Proof.
  revert out. induction rs as [|r rs IH]; intros out; csimpl.
  - by rewrite app_nil_r.
  - by rewrite IH, run_step_concat, <- app_assoc.
Qed.

Lemma extract_paragraph_spec p im :
  extract_paragraph_with_images p im = spec_render_paragraph im p.
Proof.
  unfold extract_paragraph_with_images, spec_render_paragraph.
  by rewrite join_nil_concat, fold_run_step_concat.
Qed.

(** C3: the paragraph renderer takes the runs in order; a run with
    drawings contributes exactly the placeholders [[[image:<filename>]]] of
    its drawings whose relationship identifier is in the index, whatever
    its text; a run without drawings contributes its text unchanged; the
    contributions are concatenated with no separator and the result is
    trimmed: what is removed at both ends is whitespace only, and the
    result neither starts nor ends with a whitespace character. *)
Theorem paragraph_render_spec p im :
  extract_paragraph_with_images p im
  = strip (concat (spec_run_contribution im <$> runs p))
  ∧ (∀ r, run_drawings r ≠ [] →
       spec_run_contribution im r
       = concat ((fun f => py "[[image:" ++ f ++ py "]]")
                   <$> omap (resolved im) (run_drawings r)))
  ∧ (∀ ds txt txt', ds ≠ [] →
       spec_run_contribution im (Run ds txt)
       = spec_run_contribution im (Run ds txt'))
  ∧ (∀ r, run_drawings r = [] → spec_run_contribution im r = run_text r)
  ∧ (∀ d f, resolved im d = Some f ↔
       ∃ b rid, drawing_blip d = Some b ∧ embed b = Some rid
                ∧ im !! rid = Some f)
  ∧ (∃ a b,
       concat (spec_run_contribution im <$> runs p)
       = a ++ extract_paragraph_with_images p im ++ b
       ∧ Forall (fun c => isspace c = true) a
       ∧ Forall (fun c => isspace c = true) b)
  ∧ (∀ c, head (extract_paragraph_with_images p im) = Some c →
          isspace c = false)
  ∧ (∀ c, last (extract_paragraph_with_images p im) = Some c →
          isspace c = false).
Proof.
  split_and!;
    [| | | | | rewrite extract_paragraph_spec; apply strip_split
     | intros c; apply strip_head | intros c; apply strip_last].
  - apply extract_paragraph_spec.
  - intros r Hr. unfold spec_run_contribution.
    by destruct (run_drawings r).
  - intros ds txt txt' Hds. unfold spec_run_contribution. simpl.
    by destruct ds.
  - intros r Hr. unfold spec_run_contribution. by rewrite Hr.
  - intros d f. unfold resolved, drawing_rid. split.
    + destruct (drawing_blip d) as [b|]; [|done].
      destruct (embed b) as [rid|] eqn:Hrid; [|done].
      intros Hf. by exists b, rid.
    + by intros (b & rid & -> & -> & ->).
Qed.

Lemma paragraph_render_spec_witness :
  extract_paragraph_with_images (image_par "rId1") sample_image_map
  = py "see [[image:doc_Image01.png]]".
Proof.
  destruct (paragraph_render_spec (image_par "rId1") sample_image_map)
    as [Hrender _].
  rewrite Hrender. vm_compute. reflexivity.
Defined.

(** ** Cell renderer *)

Lemma fold_cell_text_step im ps out :
  fold_left (cell_text_step im) ps out = out ++ omap (spec_line im) ps.
Proof.
  revert out. induction ps as [|p ps IH]; intros out; csimpl.
  - by rewrite app_nil_r.
  - rewrite IH. unfold cell_text_step, spec_line, tabs.
    destruct (nonempty (extract_paragraph_with_images p im)); simpl; [|done].
    destruct (is_list_paragraph p); by rewrite <- app_assoc.
Qed.

Lemma extract_cell_text_spec c im :
  extract_cell_text_preserve_lists_and_images c im = spec_cell_text im c.
Proof.
  unfold extract_cell_text_preserve_lists_and_images, spec_cell_text.
  by rewrite fold_cell_text_step.
Qed.

Lemma fold_cell_title_step im ps out :
  fold_left (cell_title_step im) ps out
  = out ++ filter (fun s => nonempty s = true)
             ((fun p => extract_paragraph_with_images p im) <$> ps).
Proof.
  revert out. induction ps as [|p ps IH]; intros out; csimpl.
  - by rewrite app_nil_r.
  - rewrite IH. unfold cell_title_step. rewrite filter_cons.
    destruct (nonempty (extract_paragraph_with_images p im)) eqn:Hne.
    + rewrite decide_True by done. by rewrite <- app_assoc.
    + rewrite decide_False by done. done.
Qed.

Lemma extract_cell_title_spec c im :
  extract_cell_title_with_images c im = spec_cell_title im c.
Proof.
  unfold extract_cell_title_with_images, spec_cell_title.
  by rewrite fold_cell_title_step.
Qed.

Lemma is_list_paragraph_iff p :
  is_list_paragraph p = true ↔ ∃ ppr npr, pPr p = Some ppr ∧ numPr ppr = Some npr.
Proof.
  unfold is_list_paragraph. destruct (pPr p) as [ppr|].
  - destruct (numPr ppr) as [npr|] eqn:Hn.
    + split; [by exists ppr, npr | done].
    + split; [done | intros (? & ? & [= <-] & ?); congruence].
  - split; [done | by intros (? & ? & ? & ?)].
Qed.

(** C5: the list-preserving cell renderer renders every paragraph with the
    run renderer, drops the empty results, turns a paragraph that carries
    numbering properties into [level] tab characters, the bullet and a
    space, and the content, leaves the other paragraphs as they are, and
    joins the lines with a newline; the level is the value of the level
    attribute, and 0 when the paragraph properties, the numbering
    properties or the level element are absent or reading the value
    raises. *)
Theorem cell_text_spec c im :
  extract_cell_text_preserve_lists_and_images c im
  = join [10%N] (omap (spec_line im) (paragraphs c))
  ∧ (∀ p, extract_paragraph_with_images p im = [] → spec_line im p = None)
  ∧ (∀ p, extract_paragraph_with_images p im ≠ [] →
       (∃ ppr npr, pPr p = Some ppr ∧ numPr ppr = Some npr) →
       spec_line im p
       = Some (replicate (Z.to_nat (get_list_level p)) 9%N ++ [8226%N; 32%N]
               ++ extract_paragraph_with_images p im))
  ∧ (∀ p, extract_paragraph_with_images p im ≠ [] →
       ¬ (∃ ppr npr, pPr p = Some ppr ∧ numPr ppr = Some npr) →
       spec_line im p = Some (extract_paragraph_with_images p im))
  ∧ (∀ p, pPr p = None → get_list_level p = 0%Z)
  ∧ (∀ p ppr, pPr p = Some ppr → numPr ppr = None → get_list_level p = 0%Z)
  ∧ (∀ p ppr npr, pPr p = Some ppr → numPr ppr = Some npr →
       ilvl npr = None → get_list_level p = 0%Z)
  ∧ (∀ p ppr npr lv e, pPr p = Some ppr → numPr ppr = Some npr →
       ilvl npr = Some lv → val lv = Raise e → get_list_level p = 0%Z)
  ∧ (∀ p ppr npr lv n, pPr p = Some ppr → numPr ppr = Some npr →
       ilvl npr = Some lv → val lv = Ok n → get_list_level p = n).
Proof.
  split_and!.
  - apply extract_cell_text_spec.
  - intros p Hp. unfold spec_line. by rewrite Hp.
  - intros p Hp Hlist%is_list_paragraph_iff. unfold spec_line. rewrite Hlist.
    by destruct (extract_paragraph_with_images p im).
  - intros p Hp Hlist. unfold spec_line.
    destruct (is_list_paragraph p) eqn:His.
    + by apply is_list_paragraph_iff in His.
    + by destruct (extract_paragraph_with_images p im).
  - intros p Hp. unfold get_list_level. by rewrite Hp.
  - intros p ppr Hp Hn. unfold get_list_level. by rewrite Hp, Hn.
  - intros p ppr npr Hp Hn Hi. unfold get_list_level. by rewrite Hp, Hn, Hi.
  - intros p ppr npr lv e Hp Hn Hi Hv. unfold get_list_level.
    by rewrite Hp, Hn, Hi, Hv.
  - intros p ppr npr lv n Hp Hn Hi Hv. unfold get_list_level.
    by rewrite Hp, Hn, Hi, Hv.
Qed.

Lemma cell_text_spec_witness :
  extract_cell_text_preserve_lists_and_images
    (Cell [bullet_par (Ok 0%Z) "item1"; text_par " ";
           bullet_par (Ok 1%Z) "item2"; bullet_par (Raise OtherError) "item3";
           text_par "plain"])
    sample_image_map
  = bullet ++ py "item1" ++ [10%N] ++ [9%N] ++ bullet ++ py "item2" ++ [10%N]
    ++ bullet ++ py "item3" ++ [10%N] ++ py "plain".
Proof.
  destruct (cell_text_spec
              (Cell [bullet_par (Ok 0%Z) "item1"; text_par " ";
                     bullet_par (Ok 1%Z) "item2";
                     bullet_par (Raise OtherError) "item3"; text_par "plain"])
              sample_image_map) as [Hcell _].
  rewrite Hcell. vm_compute. reflexivity.
Defined.

(** ** Table extractor *)

Lemma visible_app_r (a b : pystr) : visible b → visible (a ++ b).
Proof. unfold visible. rewrite Exists_app. tauto. Qed.

Lemma visible_app_l (a b : pystr) : visible a → visible (a ++ b).
Proof. unfold visible. rewrite Exists_app. tauto. Qed.

Lemma extract_paragraph_visible p im :
  nonempty (extract_paragraph_with_images p im) = true →
  visible (extract_paragraph_with_images p im).
Proof.
  unfold extract_paragraph_with_images.
  intros Hne. by apply visible_strip, nonempty_strip.
Qed.

Lemma spec_line_visible im p l : spec_line im p = Some l → visible l.
Proof.
  unfold spec_line.
  destruct (nonempty (extract_paragraph_with_images p im)) eqn:Hne; [|done].
  apply extract_paragraph_visible in Hne.
  destruct (is_list_paragraph p); intros [= <-]; [|done].
  apply visible_app_r. by apply (visible_app_r bullet).
Qed.

Lemma join_visible sep x (l : list pystr) : visible x → visible (join sep (x :: l)).
Proof.
  intros Hx. destruct l; simpl; [done|]. by apply visible_app_l.
Qed.

(** A detail is empty or has a visible character: trimming cannot empty
    it. *)
Lemma nonempty_strip_cell_text im c :
  nonempty (strip (spec_cell_text im c)) = nonempty (spec_cell_text im c).
Proof.
  unfold spec_cell_text.
  destruct (omap (spec_line im) (paragraphs c)) as [|l ls] eqn:Hlines; [done|].
  assert (Hl : visible l).
  { assert (Hin : l ∈ omap (spec_line im) (paragraphs c))
      by (rewrite Hlines; apply list_elem_of_here).
    apply list_elem_of_omap in Hin as (p & _ & Hp).
    by eapply spec_line_visible. }
  pose proof (join_visible [10%N] l ls Hl) as Hvis.
  rewrite (visible_nonempty _ Hvis).
  by apply nonempty_strip.
Qed.

Lemma nonempty_strip_cell_title im c :
  nonempty (strip (spec_cell_title im c)) = nonempty (spec_cell_title im c).
Proof. unfold spec_cell_title. apply nonempty_strip_strip. Qed.

Lemma row_step_spec im cards r :
  row_step im cards r = cards ++ option_list (spec_card im r).
Proof.
  unfold row_step, spec_card.
  destruct (cells r) as [|c0 [|c1 rest]]; simpl; try by rewrite app_nil_r.
  rewrite !extract_cell_title_spec, !extract_cell_text_spec.
  rewrite nonempty_strip_cell_text, nonempty_strip_cell_title.
  destruct (nonempty (spec_cell_title im c0)),
           (nonempty (spec_cell_text im c1)); simpl; by rewrite ?app_nil_r.
Qed.

Lemma fold_row_step im rs cards :
  fold_left (row_step im) rs cards = cards ++ omap (spec_card im) rs.
Proof.
  revert cards. induction rs as [|r rs IH]; intros cards; csimpl.
  - by rewrite app_nil_r.
  - rewrite IH, row_step_spec, <- app_assoc. by destruct (spec_card im r).
Qed.

Lemma py_index_Ok_lt {A} (l : list A) i x :
  py_index l i = Ok x → (i < Z.of_nat (length l))%Z.
Proof.
  unfold py_index. destruct (i <? 0)%Z eqn:Hneg; [lia|].
  destruct (i <? 0)%Z; [done|].
  destruct (l !! Z.to_nat i) eqn:Hl; [|done].
  apply lookup_lt_Some in Hl. lia.
Qed.

(** C6: for the table an index selects, the rows from the start row on (1
    with a header, 0 without) are taken in order; a row with fewer than
    two cells gives nothing; any other row gives the record of its first
    cell in title mode and its second cell in list-preserving mode, unless
    both are empty after trimming; the records come out in row order, none
    merged or moved.  Title mode joins the non-empty paragraph renders
    with one space, trims, and ignores the list properties. *)
Theorem table_rows_to_cards d base table_index has_header t :
  py_index (doc_tables d) table_index = Ok t →
  ∃ im files,
    extract_images_from_docx (doc_rels d) (doc_zip d) base = Ok (im, files)
    ∧ parse_docx_table_with_images d base table_index has_header
      = Ok (omap (spec_card im)
                 (drop (if has_header then 1 else 0) (rows t)),
            files)
    ∧ (∀ r, length (cells r) < 2 → spec_card im r = None)
    ∧ (∀ r c0 c1 rest, cells r = c0 :: c1 :: rest →
         let t := extract_cell_title_with_images c0 im in
         let dt := extract_cell_text_preserve_lists_and_images c1 im in
         spec_card im r
         = if nonempty (strip t) || nonempty (strip dt)
           then Some (Card t dt) else None)
    ∧ (∀ c, extract_cell_title_with_images c im
         = strip (join [32%N]
                    (filter (fun s => nonempty s = true)
                       ((fun p => extract_paragraph_with_images p im)
                          <$> paragraphs c))))
    ∧ (∀ c c', runs <$> paragraphs c = runs <$> paragraphs c' →
         extract_cell_title_with_images c im
         = extract_cell_title_with_images c' im).
Proof.
  intros Hidx.
  destruct (resolver_final (doc_rels d) (doc_zip d) base)
    as (st & _ & Hext & _).
  eexists _, _. split; [exact Hext|]. split_and!.
  - unfold parse_docx_table_with_images. rewrite Hext. simpl.
    pose proof (py_index_Ok_lt _ _ _ Hidx) as Hlt.
    destruct (Z.leb_spec (Z.of_nat (length (doc_tables d))) table_index); [lia|].
    rewrite Hidx. simpl. by rewrite fold_row_step.
  - intros r Hr. unfold spec_card.
    destruct (cells r) as [|c0 [|c1 rest]]; simpl in *; [done|done|lia].
  - intros r c0 c1 rest Hr. simpl. unfold spec_card. rewrite Hr.
    by rewrite !extract_cell_title_spec, !extract_cell_text_spec.
  - intros c. apply extract_cell_title_spec.
  - intros c c' Hruns. rewrite !extract_cell_title_spec. unfold spec_cell_title.
    do 3 f_equal.
    assert (Hmap : (fun p => extract_paragraph_with_images p (image_map st))
                   = (fun rs => strip (join [] (fold_left (run_step (image_map st)) rs [])))
                     ∘ runs) by done.
    by rewrite Hmap, !list_fmap_compose, Hruns.
Qed.

Lemma table_rows_to_cards_witness :
  py_index (doc_tables sample_doc) 0 = Ok sample_table
  ∧ parse_docx_table_with_images sample_doc (py "doc") 0 true
    = Ok ([ Card (py "Cats")
                 (bullet ++ py "item1" ++ [10%N] ++ [9%N] ++ bullet
                  ++ py "item2" ++ [10%N] ++ bullet ++ py "item3");
            Card (py "Dogs and more") (py "see [[image:doc_Image01.png]]");
            Card [] (py "see") ],
          [py "doc_Image01.png"; py "doc_Image03.bin"]).
Proof.
  split; [reflexivity|].
  destruct (table_rows_to_cards sample_doc (py "doc") 0 true sample_table)
    as (im & files & Hext & Hparse & _); [reflexivity|].
  rewrite Hparse.
  assert (Hsample : extract_images_from_docx (doc_rels sample_doc)
                      (doc_zip sample_doc) (py "doc")
                    = Ok (sample_image_map,
                          [py "doc_Image01.png"; py "doc_Image03.bin"]))
    by (vm_compute; reflexivity).
  rewrite Hsample in Hext. injection Hext as <- <-.
  vm_compute. reflexivity.
Defined.

Lemma table_error_msg_not_builtin path n i :
  table_error_msg path n i ≠ py "list index out of range".
Proof. unfold table_error_msg. discriminate. Qed.

Lemma py_index_error {A} (l : list A) i e :
  py_index l i = Raise e → e = IndexError (py "list index out of range").
Proof.
  unfold py_index.
  destruct (_ <? 0)%Z; [by intros [= <-]|].
  destruct (l !! _); [done | by intros [= <-]].
Qed.

(** C7: the table extractor raises its own error, the one whose message
    names the document, its number of tables and the requested index,
    exactly when the requested index is not below the number of tables;
    when the index designates a table (from the front, or from the back
    for a negative index in range) the call returns records; what is left,
    a negative index beyond the first table, is not met by that check and
    fails in the list access instead. *)
Theorem table_index_error d base table_index has_header :
  (parse_docx_table_with_images d base table_index has_header
   = Raise (IndexError (table_error_msg (doc_path d) (length (doc_tables d))
                                        table_index))
   ↔ (Z.of_nat (length (doc_tables d)) ≤ table_index)%Z)
  ∧ ((- Z.of_nat (length (doc_tables d)) ≤ table_index
      < Z.of_nat (length (doc_tables d)))%Z →
     ∃ cards files,
       parse_docx_table_with_images d base table_index has_header
       = Ok (cards, files))
  ∧ ((table_index < - Z.of_nat (length (doc_tables d)))%Z →
     parse_docx_table_with_images d base table_index has_header
     = Raise (IndexError (py "list index out of range"))).
Proof.
  destruct (resolver_final (doc_rels d) (doc_zip d) base)
    as (st & _ & Hext & _).
  unfold parse_docx_table_with_images. rewrite Hext. simpl.
  set (n := length (doc_tables d)).
  destruct (Z.leb_spec (Z.of_nat n) table_index) as [Hge|Hlt].
  - split_and!; [done | lia | lia].
  - destruct (py_index (doc_tables d) table_index) as [t|e] eqn:Hidx; simpl.
    + split_and!; [split; [done | lia] | by eauto |].
      intros Hlow. unfold py_index in Hidx. fold n in Hidx.
      destruct (Z.ltb_spec table_index 0); [|lia].
      destruct (Z.ltb_spec (table_index + Z.of_nat n) 0); [done | lia].
    + pose proof (py_index_error _ _ _ Hidx) as ->.
      split_and!.
      * split; [|lia]. intros Heq. exfalso.
        eapply (table_error_msg_not_builtin (doc_path d) n table_index).
        assert (Hinj : ∀ a b, @Raise (list card * list pystr) (IndexError a)
                              = Raise (IndexError b) → a = b)
          by (by intros a b [= ->]).
        symmetry. apply Hinj. exact Heq.
      * intros Hrange. exfalso. unfold py_index in Hidx. fold n in Hidx.
        destruct (Z.ltb_spec table_index 0).
        -- destruct (Z.ltb_spec (table_index + Z.of_nat n) 0); [lia|].
           destruct (doc_tables d !! Z.to_nat (table_index + Z.of_nat n)) eqn:Hl;
             [done|]. apply lookup_ge_None in Hl. fold n in Hl. lia.
        -- destruct (Z.ltb_spec table_index 0); [lia|].
           destruct (doc_tables d !! Z.to_nat table_index) eqn:Hl; [done|].
           apply lookup_ge_None in Hl. fold n in Hl. lia.
      * done.
Qed.

Lemma table_index_error_witness :
  parse_docx_table_with_images sample_doc (py "doc") 1 true
  = Raise (IndexError
             (py "'doc.docx' has only 1 tables, but index=1 was requested.")).
Proof.
  destruct (table_index_error sample_doc (py "doc") 1 true) as [[_ Hraise] _].
  rewrite Hraise; [reflexivity|]. simpl. lia.
Defined.

(** C7 as it is worded fails below the first table: the sample document
    has one table, so there is no table of index -2; the call raises, but
    the error is the one of the list access, not the descriptive one. *)
Lemma table_index_error_counterexample :
  length (doc_tables sample_doc) = 1
  ∧ (∀ t, py_index (doc_tables sample_doc) (-2) ≠ Ok t)
  ∧ parse_docx_table_with_images sample_doc (py "doc") (-2) true
    = Raise (IndexError (py "list index out of range"))
  ∧ parse_docx_table_with_images sample_doc (py "doc") (-2) true
    ≠ Raise (IndexError (table_error_msg (doc_path sample_doc) 1 (-2))).
Proof.
  assert (Hparse : parse_docx_table_with_images sample_doc (py "doc") (-2) true
                   = Raise (IndexError (py "list index out of range")))
    by (vm_compute; reflexivity).
  split_and!; [reflexivity | | exact Hparse |].
  - intros t. vm_compute. discriminate.
  - rewrite Hparse. vm_compute. discriminate.
Qed.

(** ** Manifest tracker *)

Example sample_load :
  load_manifest sample_fs (py "out/manifest.json")
  = Ok (JObj [(py "generated_at", JStr (py "2024-01-01T00:00:00+00:00"));
              (py "files", JArr (JObj <$> dvalues sample_index))],
        sample_index).
Proof. vm_compute. reflexivity. Qed.

Example sample_save :
  run_batch (py "2025-02-02T00:00:01+00:00")
    [(py "generated_at", JNull); (py "files", JArr [])]
    sample_index sample_batch
  = Ok [ (py "generated_at", JStr (py "2025-02-02T00:00:01+00:00"));
         (py "files",
          JArr [ JObj [(py "path", JStr (py "doc.json"));
                       (py "type", JStr (py "json")); (py "note", JNum 7);
                       (py "source_docx", JStr (py "doc.docx"));
                       (py "parsed_at", JStr (py "2025-02-02T00:00:00+00:00"))];
                 JObj [(py "path", JStr (py "doc_Image01.png"));
                       (py "type", JStr (py "image"));
                       (py "source_docx", JStr (py "doc.docx"));
                       (py "parsed_at", JStr (py "2025-02-02T00:00:00+00:00"))];
                 JObj [(py "path", JStr (py "doc_Image03.bin"));
                       (py "type", JStr (py "image"));
                       (py "source_docx", JStr (py "doc.docx"));
                       (py "parsed_at", JStr (py "2025-02-02T00:00:00+00:00"))];
                 JObj [(py "path", JStr (py "old.json"));
                       (py "type", JStr (py "json"));
                       (py "source_docx", JStr (py "old.docx"));
                       (py "parsed_at", JStr (py "2024-01-01T00:00:00+00:00"))] ]) ].
Proof. vm_compute. reflexivity. Qed.

Lemma str_lt_irrefl a : str_lt a a = false.
Proof.
  induction a as [|x a IH]; simpl; [done|].
  by rewrite N.ltb_irrefl, N.eqb_refl, IH.
Qed.

Lemma str_lt_trans a b c : str_lt a b = true → str_lt b c = true → str_lt a c = true.
Proof.
  revert b c. induction a as [|x a IH]; intros [|y b] [|z c]; simpl; try done.
  intros Hab Hbc.
  apply orb_true_iff in Hab as [Hxy | [Hxy Hab]%andb_true_iff];
  apply orb_true_iff in Hbc as [Hyz | [Hyz Hbc]%andb_true_iff];
  rewrite ?N.ltb_lt, ?N.eqb_eq in *; apply orb_true_iff.
  - left. apply N.ltb_lt. lia.
  - left. apply N.ltb_lt. lia.
  - left. apply N.ltb_lt. lia.
  - right. apply andb_true_iff. split; [apply N.eqb_eq; lia | by eapply IH].
Qed.

Lemma str_lt_total a b : str_lt a b = false → str_lt b a = false → a = b.
Proof.
  revert b. induction a as [|x a IH]; intros [|y b]; simpl; try done.
  intros Hab Hba.
  apply orb_false_iff in Hab as [Hxy Hab]. apply orb_false_iff in Hba as [Hyx Hba].
  apply N.ltb_ge in Hxy, Hyx. assert (x = y) as -> by lia.
  rewrite N.eqb_refl in *. simpl in *. f_equal. by apply IH.
Qed.

Lemma str_lt_asym a b : str_lt a b = true → str_lt b a = false.
Proof.
  intros Hab. destruct (str_lt b a) eqn:Hba; [|done].
  pose proof (str_lt_trans _ _ _ Hab Hba) as Haa.
  by rewrite str_lt_irrefl in Haa.
Qed.

Lemma str_le_trans a b c :
  str_lt b a = false → str_lt c b = false → str_lt c a = false.
Proof.
  intros Hab Hbc. destruct (str_lt c a) eqn:Hca; [|done].
  destruct (str_lt b c) eqn:Hcb.
  - by rewrite (str_lt_trans _ _ _ Hcb Hca) in Hab.
  - pose proof (str_lt_total _ _ Hcb Hbc) as ->. congruence.
Qed.

Lemma insertM_cons {A} (lt : A → A → result bool) x y l :
  insertM lt x (y :: l)
  = (b ← lt y x;
     if b : bool then r ← insertM lt x l; Ok (y :: r) else Ok (x :: y :: l)).
Proof. reflexivity. Qed.

Lemma insertM_str x l :
  str_keyed x → Forall str_keyed l → StronglySorted entry_le l →
  ∃ r, insertM entry_lt x l = Ok r ∧ r ≡ₚ x :: l ∧ StronglySorted entry_le r.
Proof.
  intros [kx Hx]. induction l as [|y l IH]; intros Hkeys Hsorted.
  - exists [x]. split_and!; [done | done |].
    apply SSorted_cons; [apply SSorted_nil | apply Forall_nil_2].
  - apply Forall_cons in Hkeys as [[ky Hy] Hkeys].
    apply StronglySorted_inv in Hsorted as [Hsorted Hy_le].
    assert (Hcmp : entry_lt y x = Ok (str_lt ky kx))
      by (unfold entry_lt; by rewrite Hy, Hx).
    rewrite insertM_cons, Hcmp.
    change (mbind ?f (Ok ?b)) with (f b). cbv beta.
    destruct (str_lt ky kx) eqn:Hlt.
    + destruct (IH Hkeys Hsorted) as (r & -> & Hperm & Hr).
      change (mbind ?f (Ok ?b)) with (f b). cbv beta.
      exists (y :: r). split_and!; [done | |].
      * rewrite Hperm. apply perm_swap.
      * apply SSorted_cons; [done|].
        rewrite Hperm. apply Forall_cons. split; [|done].
        exists ky, kx. split_and!; [done | done | by apply str_lt_asym].
    + exists (x :: y :: l). split_and!; [done | done |].
      apply SSorted_cons; [by apply SSorted_cons|].
      apply Forall_cons. split.
      * by exists kx, ky.
      * eapply Forall_impl; [exact Hy_le|].
        intros z (ky' & kz & Hy' & Hz & Hle). exists kx, kz.
        split_and!; [done | done |].
        assert (ky' = ky) as -> by congruence.
        by eapply str_le_trans.
Qed.

(** On entries whose paths are strings, [sorted] returns, and what it
    returns is the same entries in ascending order of path. *)
Lemma sortedM_str l :
  Forall str_keyed l →
  ∃ r, sortedM entry_lt l = Ok r ∧ r ≡ₚ l ∧ StronglySorted entry_le r.
Proof.
  induction l as [|x l IH]; intros Hkeys; simpl.
  - exists []. split_and!; [done | done | apply SSorted_nil].
  - apply Forall_cons in Hkeys as [Hx Hkeys].
    destruct (IH Hkeys) as (s & -> & Hperm & Hs). simpl.
    assert (Hskeys : Forall str_keyed s) by by rewrite Hperm.
    destruct (insertM_str x s Hx Hskeys Hs) as (r & Hr & Hperm' & Hsorted).
    exists r. split_and!; [done | | done].
    by rewrite Hperm', Hperm.
Qed.

Lemma upsert_other index name ty src at_ k :
  k ≠ HStr name → dget k (upsert index name ty src at_) = dget k index.
Proof. intros Hne. unfold upsert. by rewrite dget_dset_ne. Qed.

Lemma upsert_same index name ty src at_ :
  ∃ e', dget (HStr name) (upsert index name ty src at_) = Some e'
    ∧ dget (py "type") e' = Some (JStr ty)
    ∧ dget (py "source_docx") e' = Some (JStr src)
    ∧ dget (py "parsed_at") e' = Some (JStr at_)
    ∧ ∀ f, f ∉ updated_fields → dget f e' = dget f (base_entry index name).
Proof.
  unfold upsert. fold (base_entry index name).
  eexists. split; [apply dget_dset_eq|]. split_and!.
  - rewrite !dget_dset_ne by done. apply dget_dset_eq.
  - rewrite dget_dset_ne by done. apply dget_dset_eq.
  - apply dget_dset_eq.
  - intros f Hf. unfold updated_fields in Hf.
    rewrite !not_elem_of_cons in Hf. destruct Hf as (H1 & H2 & H3 & _).
    by rewrite !dget_dset_ne.
Qed.

Lemma fold_left_fmap {A B C} (f : C → B → C) (g : A → B) l c :
  fold_left f (g <$> l) c = fold_left (fun c x => f c (g x)) l c.
Proof. revert c. induction l as [|x l IH]; intros c; csimpl; [done|]. apply IH. Qed.

Lemma update_manifest_ops batch index :
  fold_left update_manifest batch index
  = fold_left apply_op (batch_ops batch) index.
Proof.
  unfold batch_ops. revert index.
  induction batch as [|d batch IH]; intros index; csimpl; [done|].
  rewrite fold_left_app, IH. f_equal.
  unfold update_manifest, doc_ops. simpl. by rewrite fold_left_fmap.
Qed.

Lemma ops_untouched ops index k :
  (∀ op, op ∈ ops → k ≠ HStr (op_name op)) →
  dget k (fold_left apply_op ops index) = dget k index.
Proof.
  revert index. induction ops as [|op ops IH]; intros index Hk; simpl; [done|].
  rewrite IH.
  - apply upsert_other, Hk, list_elem_of_here.
  - intros op' Hop'. by apply Hk, list_elem_of_further.
Qed.

Lemma ops_NoDup ops index :
  NoDup (dkeys index) → NoDup (dkeys (fold_left apply_op ops index)).
Proof.
  revert index. induction ops as [|op ops IH]; intros index Hnd; simpl; [done|].
  apply IH. unfold apply_op, upsert. by apply NoDup_dkeys_dset.
Qed.

Lemma base_entry_path index name :
  str_paths index → dget (py "path") (base_entry index name) = Some (JStr name).
Proof.
  intros Hwf. unfold base_entry, dget_default.
  destruct (dget (HStr name) index) as [e|] eqn:He; [|done].
  destruct (Hwf _ _ He) as (s & [= ->] & Hs). done.
Qed.

Lemma apply_op_str_paths index op : str_paths index → str_paths (apply_op index op).
Proof.
  intros Hwf k e Hk. unfold apply_op in Hk.
  destruct (decide (k = HStr (op_name op))) as [->|Hne].
  - destruct (upsert_same index (op_name op) (op_type op) (op_source op)
                (op_parsed_at op)) as (e' & He' & _ & _ & _ & Hrest).
    rewrite He' in Hk. injection Hk as <-.
    exists (op_name op). split; [done|].
    rewrite Hrest; [by apply base_entry_path|].
    unfold updated_fields. rewrite !not_elem_of_cons. split_and!; try done.
    apply not_elem_of_nil.
  - rewrite upsert_other in Hk by done. by apply Hwf.
Qed.

Lemma ops_str_paths ops index :
  str_paths index → str_paths (fold_left apply_op ops index).
Proof.
  revert index. induction ops as [|op ops IH]; intros index Hwf; simpl; [done|].
  by apply IH, apply_op_str_paths.
Qed.

(** The entry of a touched filename after a sequence of upserts: the
    three fields come from the last upsert of that name, the others from
    the entry the first one started from. *)
Lemma ops_touched ops index name :
  name ∈ (op_name <$> ops) →
  ∃ e' op,
    op ∈ ops ∧ op_name op = name
    ∧ dget (HStr name) (fold_left apply_op ops index) = Some e'
    ∧ dget (py "type") e' = Some (JStr (op_type op))
    ∧ dget (py "source_docx") e' = Some (JStr (op_source op))
    ∧ dget (py "parsed_at") e' = Some (JStr (op_parsed_at op))
    ∧ ∀ f, f ∉ updated_fields → dget f e' = dget f (base_entry index name).
Proof.
  induction ops as [|op0 ops IH] using rev_ind; intros Hin.
  - by apply elem_of_nil in Hin.
  - rewrite fold_left_app. simpl. set (final := fold_left apply_op ops index) in *.
    destruct (decide (name = op_name op0)) as [->|Hne].
    + destruct (upsert_same final (op_name op0) (op_type op0) (op_source op0)
                  (op_parsed_at op0)) as (e' & He' & Hty & Hsrc & Hat & Hrest).
      exists e', op0. split_and!; try done.
      { apply elem_of_app. right. apply list_elem_of_here. }
      intros f Hf. rewrite (Hrest f Hf).
      destruct (decide (op_name op0 ∈ (op_name <$> ops))) as [Hearlier|Hfirst].
      * destruct (IH Hearlier) as (e1 & op1 & _ & _ & He1 & _ & _ & _ & Hrest1).
        unfold base_entry at 1, dget_default. rewrite He1. by apply Hrest1.
      * unfold base_entry, dget_default. unfold final.
        rewrite ops_untouched; [done|].
        intros op Hop [= Heq]. apply Hfirst. rewrite Heq.
        by apply list_elem_of_fmap_2.
    + rewrite fmap_app, elem_of_app in Hin. destruct Hin as [Hin|Hin].
      * destruct (IH Hin)
          as (e' & op & Hop & Hname & He' & Hty & Hsrc & Hat & Hrest).
        exists e', op. split_and!; try done.
        { apply elem_of_app. by left. }
        unfold apply_op. rewrite upsert_other; [done|]. by intros [= ->].
      * csimpl in Hin. apply list_elem_of_singleton in Hin. done.
Qed.

Lemma elem_of_batch_ops batch op :
  op ∈ batch_ops batch →
  ∃ d, d ∈ batch
       ∧ op_source op = source_docx d ∧ op_parsed_at op = parsed_at d
       ∧ (op_name op = output_json_name d ∧ op_type op = py "json"
          ∨ op_name op ∈ image_files d ∧ op_type op = py "image").
Proof.
  unfold batch_ops. rewrite list_elem_of_bind. intros (d & Hop & Hd).
  exists d. split; [done|]. unfold doc_ops in Hop.
  apply elem_of_cons in Hop as [->|Hop]; simpl.
  - split_and!; [done | done | by left].
  - apply list_elem_of_fmap in Hop as (img & -> & Himg). simpl.
    split_and!; [done | done | by right].
Qed.

Lemma values_str_keyed index :
  NoDup (dkeys index) → str_paths index → Forall str_keyed (dvalues index).
Proof.
  intros Hnd Hwf. apply Forall_forall. intros e He.
  unfold dvalues in He. apply list_elem_of_fmap in He as ([k e'] & -> & Hin).
  simpl. apply elem_of_dget in Hin; [|done].
  destruct (Hwf _ _ Hin) as (s & _ & Hs).
  exists s. unfold path_key, dget_default. by rewrite Hs.
Qed.

Lemma dget_elem_of_dvalues {K} `{EqDecision K} {V} (d : list (K * V)) k v :
  dget k d = Some v → v ∈ dvalues d.
Proof.
  intros Hk%dget_Some_elem_of. unfold dvalues.
  apply list_elem_of_fmap. by exists (k, v).
Qed.

Lemma sorted_NoDup_strict l :
  StronglySorted (fun a b => str_lt b a = false) l → NoDup l →
  StronglySorted (fun a b => str_lt a b = true) l.
Proof.
  induction 1 as [|x l Hl IH Hx]; intros Hnd; [apply SSorted_nil|].
  apply NoDup_cons in Hnd as [Hnotin Hnd].
  apply SSorted_cons; [by apply IH|].
  apply Forall_forall. intros y Hy.
  rewrite Forall_forall in Hx. specialize (Hx y Hy).
  destruct (str_lt x y) eqn:Hxy; [done|].
  pose proof (str_lt_total _ _ Hxy Hx) as ->. done.
Qed.

(** The path of an entry of a saved list, as a filename. *)
Lemma path_key_name (e : entry) x s :
  path_key e = JStr x → dget (py "path") e = Some (JStr s) → x = s.
Proof. unfold path_key, dget_default. intros Hx Hs. rewrite Hs in Hx. congruence. Qed.

Lemma StronglySorted_fmap {A B} (R : A → A → Prop) (R' : B → B → Prop)
    (f : A → B) l :
  (∀ a b, a ∈ l → b ∈ l → R a b → R' (f a) (f b)) →
  StronglySorted R l → StronglySorted R' (f <$> l).
Proof.
  intros Hf Hl. induction Hl as [|x l Hl IH Hx]; csimpl; [apply SSorted_nil|].
  apply SSorted_cons.
  - apply IH. intros a b Ha Hb. by apply Hf; apply list_elem_of_further.
  - apply Forall_fmap, Forall_forall. intros y Hy. simpl. apply Hf.
    + apply list_elem_of_here.
    + by apply list_elem_of_further.
    + by apply (proj1 (Forall_forall _ _) Hx).
Qed.

(** A list of the entries of an index that is sorted by the path field
    lists the index in strictly ascending order of its filename keys,
    when every entry sits under its own path. *)
Lemma sorted_files_names (final : manifest_index) (files : list entry) :
  NoDup (dkeys final) → str_paths final →
  files ≡ₚ dvalues final → StronglySorted entry_le files →
  ∃ names : list pystr,
    Forall2 (fun name e => dget (HStr name) final = Some e
                           ∧ dget (py "path") e = Some (JStr name)) names files
    ∧ HStr <$> names ≡ₚ dkeys final
    ∧ StronglySorted (fun a b => str_lt a b = true) names.
Proof.
  intros Hnd Hwf Hperm Hsorted.
  set (name_of := fun e : entry =>
         match dget (py "path") e with Some (JStr s) => s | _ => [] end).
  assert (Hpair : ∀ k e, (k, e) ∈ final →
            k = HStr (name_of e) ∧ dget (HStr (name_of e)) final = Some e
            ∧ dget (py "path") e = Some (JStr (name_of e))).
  { intros k e Hin. apply elem_of_dget in Hin; [|done].
    destruct (Hwf _ _ Hin) as (s & -> & Hs).
    assert (Hname : name_of e = s) by (unfold name_of; by rewrite Hs).
    by rewrite Hname. }
  assert (Hfile : ∀ e, e ∈ files →
            dget (HStr (name_of e)) final = Some e
            ∧ dget (py "path") e = Some (JStr (name_of e))).
  { intros e He. rewrite Hperm in He. unfold dvalues in He.
    apply list_elem_of_fmap in He as ([k e'] & -> & Hin).
    by destruct (Hpair _ _ Hin) as (_ & ? & ?). }
  assert (Hkeys : HStr <$> (name_of <$> files) ≡ₚ dkeys final).
  { rewrite Hperm. unfold dvalues, dkeys.
    assert (Hgen : ∀ l : manifest_index, (∀ k e, (k, e) ∈ l → (k, e) ∈ final) →
              HStr <$> (name_of <$> (snd <$> l)) = fst <$> l).
    { induction l as [|[k e] l IH]; intros Hl; csimpl; [done|].
      destruct (Hpair k e (Hl _ _ (list_elem_of_here _ _))) as (<- & _).
      f_equal. apply IH. intros k' e' Hin. by apply Hl, list_elem_of_further. }
    by rewrite Hgen. }
  exists (name_of <$> files). split_and!.
  - apply Forall2_fmap_l, Forall_Forall2_diag, Forall_forall. exact Hfile.
  - exact Hkeys.
  - apply sorted_NoDup_strict.
    + eapply StronglySorted_fmap; [|exact Hsorted].
      intros a b Ha Hb (x & y & Hx & Hy & Hle). simpl.
      destruct (Hfile a Ha) as [_ Hpa]. destruct (Hfile b Hb) as [_ Hpb].
      by rewrite <- (path_key_name a x _ Hx Hpa), <- (path_key_name b y _ Hy Hpb).
    + apply (NoDup_fmap_1 HStr). rewrite Hkeys. exact Hnd.
Qed.

(** C8: after any sequence of per-document upserts and [save_manifest],
    on an index whose entries sit under their own (string) path, as
    [load_manifest] builds it: the saved list holds the entries of the
    index, one for each filename key, in strictly ascending order of
    those filenames (the order of Python's string comparison), each
    carrying its filename as its path; an entry whose filename the batch
    does not touch is in it unchanged; an entry whose filename the batch
    touches has its [type], [source_docx] and [parsed_at] set by the last
    upsert of that name and every other field as it was before the batch
    (or, for a new entry, only its path). *)
Theorem manifest_accumulates now manifest_data index batch :
  NoDup (dkeys index) → str_paths index →
  ∃ (files : list entry) (names : list pystr),
    run_batch now manifest_data index batch
    = Ok (dset (py "files") (JArr (JObj <$> files))
               (dset (py "generated_at") (JStr now) manifest_data))
    ∧ files ≡ₚ dvalues (fold_left update_manifest batch index)
    ∧ Forall2 (fun name e =>
                 dget (HStr name) (fold_left update_manifest batch index) = Some e
                 ∧ dget (py "path") e = Some (JStr name)) names files
    ∧ HStr <$> names ≡ₚ dkeys (fold_left update_manifest batch index)
    ∧ StronglySorted (fun a b => str_lt a b = true) names
    ∧ StronglySorted entry_le files
    ∧ (∀ name e, dget (HStr name) index = Some e → name ∉ touched batch →
         e ∈ files)
    ∧ (∀ name, name ∈ touched batch →
         ∃ e' d ty,
           e' ∈ files ∧ d ∈ batch
           ∧ (name = output_json_name d ∧ ty = py "json"
              ∨ name ∈ image_files d ∧ ty = py "image")
           ∧ dget (py "path") e' = Some (JStr name)
           ∧ dget (py "type") e' = Some (JStr ty)
           ∧ dget (py "source_docx") e' = Some (JStr (source_docx d))
           ∧ dget (py "parsed_at") e' = Some (JStr (parsed_at d))
           ∧ ∀ f, f ∉ updated_fields →
                  dget f e' = dget f (base_entry index name)).
Proof.
  intros Hnd Hwf. unfold run_batch, save_manifest.
  rewrite update_manifest_ops.
  set (final := fold_left apply_op (batch_ops batch) index).
  assert (Hnd' : NoDup (dkeys final)) by by apply ops_NoDup.
  assert (Hwf' : str_paths final) by by apply ops_str_paths.
  destruct (sortedM_str (dvalues final) (values_str_keyed _ Hnd' Hwf'))
    as (files & Hsort & Hperm & Hsorted).
  destruct (sorted_files_names final files Hnd' Hwf' Hperm Hsorted)
    as (names & Hnames & Hkeys & Hstrict).
  exists files, names. fold entry_lt. rewrite Hsort. split_and!; try done.
  - intros name e He Hname. rewrite Hperm.
    apply (dget_elem_of_dvalues final (HStr name)).
    unfold final. rewrite ops_untouched; [done|].
    intros op Hop [= ->]. apply Hname. unfold touched.
    by apply list_elem_of_fmap_2.
  - intros name Hname. unfold touched in Hname.
    destruct (ops_touched (batch_ops batch) index name Hname)
      as (e' & op & Hop & Hopname & He' & Hty & Hsrc & Hat & Hrest).
    destruct (elem_of_batch_ops batch op Hop) as (d & Hd & Hs & Hp & Hkind).
    exists e', d, (op_type op).
    rewrite <- Hs, <- Hp, <- Hopname in *.
    split_and!; try done.
    + rewrite Hperm. by apply (dget_elem_of_dvalues final (HStr (op_name op))).
    + destruct (Hwf' _ _ He') as (s & [= <-] & Hpath). done.
Qed.

Lemma manifest_accumulates_witness :
  NoDup (dkeys sample_index) ∧ str_paths sample_index
  ∧ ∃ (files : list entry) (names : list pystr),
      run_batch (py "2025-02-02T00:00:01+00:00") [] sample_index sample_batch
      = Ok [(py "generated_at", JStr (py "2025-02-02T00:00:01+00:00"));
            (py "files", JArr (JObj <$> files))]
      ∧ Forall2 (fun name e => dget (py "path") e = Some (JStr name)) names files
      ∧ StronglySorted (fun a b => str_lt a b = true) names
      ∧ [(py "path", JStr (py "old.json")); (py "type", JStr (py "json"));
         (py "source_docx", JStr (py "old.docx"));
         (py "parsed_at", JStr (py "2024-01-01T00:00:00+00:00"))] ∈ files.
Proof.
  assert (Hnd : NoDup (dkeys sample_index)).
  { apply (bool_decide_unpack (NoDup (dkeys sample_index))).
    vm_compute. exact I. }
  assert (Hwf : str_paths sample_index).
  { intros k e Hk. unfold sample_index in Hk. simpl in Hk.
    repeat case_decide; simplify_eq; eexists; (split; [reflexivity|]);
      reflexivity. }
  split; [exact Hnd|]. split; [exact Hwf|].
  destruct (manifest_accumulates (py "2025-02-02T00:00:01+00:00") []
              sample_index sample_batch Hnd Hwf)
    as (files & names & Hrun & _ & Hnames & _ & Hstrict & _ & Hkeep & _).
  exists files, names. split; [exact Hrun|].
  split; [|split; [exact Hstrict|]].
  - eapply Forall2_impl; [exact Hnames|]. intros name e [_ Hpath]. exact Hpath.
  - apply (Hkeep (py "old.json")); [reflexivity|].
    apply (bool_decide_unpack (py "old.json" ∉ touched sample_batch)).
    vm_compute. exact I.
Defined.

(** C8 as it is worded, for every index, fails on a manifest in which an
    entry has a number for a path: [load_manifest] puts that entry into
    the index under the number, and after the upserts of a batch
    [save_manifest] raises [TypeError] when it sorts, so that no manifest
    is saved, and the untouched entry is in none. *)
Lemma manifest_accumulates_counterexample :
  load_manifest numeric_fs (py "out/manifest.json")
  = Ok (JObj numeric_manifest, mixed_index)
  ∧ NoDup (dkeys mixed_index)
  ∧ dget (HInt 5) mixed_index = Some [(py "path", JNum 5)]
  ∧ run_batch (py "2025-02-02T00:00:01+00:00") numeric_manifest mixed_index
      sample_batch
    = Raise TypeError.
Proof.
  split_and!; [vm_compute; reflexivity | | reflexivity | vm_compute; reflexivity].
  apply (bool_decide_unpack (NoDup (dkeys mixed_index))). vm_compute. exact I.
Qed.

Lemma load_step_str_paths index e :
  NoDup (dkeys index) → str_paths index → str_path_entry e →
  ∃ index', load_step index e = Ok index'
            ∧ NoDup (dkeys index') ∧ str_paths index'.
Proof.
  intros Hnd Hwf (o & -> & Hpath). unfold load_step, py_get, dget_default.
  destruct Hpath as [Hp | [s Hp]]; rewrite Hp.
  - by exists index.
  - destruct s as [|c s]; [by exists index|].
    exists (dset (HStr (c :: s)) o index). split_and!.
    + reflexivity.
    + by apply NoDup_dkeys_dset.
    + intros k e Hk. destruct (decide (k = HStr (c :: s))) as [->|Hne].
      * rewrite dget_dset_eq in Hk. injection Hk as <-. by exists (c :: s).
      * rewrite dget_dset_ne in Hk by done. by apply Hwf.
Qed.

Lemma str_paths_nil : str_paths [].
Proof. intros k e Hk. discriminate Hk. Qed.

Lemma foldM_load_step_str_paths entries index :
  NoDup (dkeys index) → str_paths index → Forall str_path_entry entries →
  ∃ index', foldM load_step entries index = Ok index'
            ∧ NoDup (dkeys index') ∧ str_paths index'.
Proof.
  revert index. induction entries as [|e entries IH]; intros index Hnd Hwf Hes.
  - by exists index.
  - apply Forall_cons in Hes as [He Hes].
    destruct (load_step_str_paths index e Hnd Hwf He) as (i1 & Hi1 & Hnd1 & Hwf1).
    simpl. rewrite Hi1. simpl. by apply IH.
Qed.

(** A manifest whose entries have string paths loads into an index that
    holds every entry under its own path. *)
Lemma load_manifest_str_paths (fs : filesystem) path o entries :
  fs !! path = Some (Parsed (JObj o)) →
  dget (py "files") o = Some (JArr entries) →
  Forall str_path_entry entries →
  ∃ index, load_manifest fs path = Ok (JObj o, index)
           ∧ NoDup (dkeys index) ∧ str_paths index.
Proof.
  intros Hfs Hfiles Hes. unfold load_manifest. rewrite Hfs. simpl.
  unfold dget_default. rewrite Hfiles. simpl.
  destruct (foldM_load_step_str_paths entries [] NoDup_nil_2 str_paths_nil Hes)
    as (index & Hindex & Hnd & Hwf).
  rewrite Hindex. simpl. by exists index.
Qed.

(** C9: when the manifest file does not exist, [load_manifest] returns a
    fresh manifest with no timestamp and no files, and an empty index,
    and raises nothing; when the file exists and [json.load] raises on
    it, that error is what [load_manifest] raises; so a successful load
    comes either from an absent file or from a file that parsed, whose
    data it returns. *)
Theorem load_manifest_absent_or_malformed (fs : filesystem) manifest_path :
  (fs !! manifest_path = None →
   load_manifest fs manifest_path
   = Ok (JObj [(py "generated_at", JNull); (py "files", JArr [])], []))
  ∧ (∀ e, fs !! manifest_path = Some (Unparsable e) →
       load_manifest fs manifest_path = Raise e)
  ∧ (∀ data index, load_manifest fs manifest_path = Ok (data, index) →
       fs !! manifest_path = None ∧ index = []
       ∧ data = JObj [(py "generated_at", JNull); (py "files", JArr [])]
       ∨ fs !! manifest_path = Some (Parsed data)).
Proof.
  unfold load_manifest. split_and!.
  - by intros ->.
  - by intros e ->.
  - intros data index. destruct (fs !! manifest_path) as [[e|d]|].
    + done.
    + simpl. intros Hload. right.
      destruct (py_get d (py "files") (JArr [])) as [files|]; [|done].
      simpl in Hload. destruct (py_iter files) as [entries|]; [|done].
      simpl in Hload. destruct (foldM load_step entries []); [|done].
      by injection Hload as <- _.
    + intros [= <- <-]. by left.
Qed.

Lemma load_manifest_absent_or_malformed_witness :
  sample_fs !! py "out/nothing.json" = None
  ∧ sample_fs !! py "out/broken.json" = Some (Unparsable JSONDecodeError)
  ∧ load_manifest sample_fs (py "out/nothing.json")
    = Ok (JObj [(py "generated_at", JNull); (py "files", JArr [])], [])
  ∧ load_manifest sample_fs (py "out/broken.json") = Raise JSONDecodeError.
Proof.
  destruct (load_manifest_absent_or_malformed sample_fs (py "out/nothing.json"))
    as (Habsent & _).
  destruct (load_manifest_absent_or_malformed sample_fs (py "out/broken.json"))
    as (_ & Hbroken & _).
  split; [reflexivity|]. split; [reflexivity|].
  split; [apply Habsent; reflexivity | apply Hbroken; reflexivity].
Defined.

(** * Further properties of the code *)

(** Closed decidable goals, by evaluation. *)
Ltac by_decide :=
  match goal with
  | |- ?P => apply (bool_decide_unpack P); vm_compute; exact I
  end.

(** ** Paths and extensions *)

Lemma startswith_app p s : startswith p (p ++ s) = true.
Proof. induction p as [|c p IH]; simpl; [done|]. by rewrite N.eqb_refl, IH. Qed.

Lemma startswith_prefix p s : startswith p s = true → ∃ s', s = p ++ s'.
Proof.
  revert s. induction p as [|c p IH]; intros s; simpl.
  - by exists s.
  - destruct s as [|b s]; [done|].
    intros [->%N.eqb_eq Hs]%andb_true_iff.
    destruct (IH _ Hs) as [s' ->]. by exists s'.
Qed.

Lemma normalize_startswith_word t : startswith (py "word/") (normalize t) = true.
Proof.
  unfold normalize.
  set (t' := if startswith (py "/") t then drop 1 t else t).
  destruct (startswith (py "word/") t') eqn:Hw.
  - exact Hw.
  - exact (startswith_app (py "word/") t').
Qed.

Lemma normalize_fixed s : startswith (py "word/") s = true → normalize s = s.
Proof.
  intros Hs. destruct (startswith_prefix _ _ Hs) as [s' ->].
  unfold normalize. change (startswith (py "/") (py "word/" ++ s')) with false.
  cbv iota. by rewrite Hs.
Qed.

(** X1: every path the resolver looks up in the container lies under
    [word/]: a target already there is kept, with its leading separator
    dropped if it has one, any other target is put under [word/]; so
    normalising a second time changes nothing. *)
Theorem normalize_under_word t :
  (∃ rest, normalize t = py "word/" ++ rest)
  ∧ normalize (normalize t) = normalize t
  ∧ (startswith (py "word/") t = true → normalize t = t)
  ∧ (startswith (py "/word/") t = true → normalize t = drop 1 t)
  ∧ (startswith (py "/") t = false → startswith (py "word/") t = false →
     normalize t = py "word/" ++ t).
Proof.
  split_and!.
  - apply (startswith_prefix _ _ (normalize_startswith_word t)).
  - apply normalize_fixed, normalize_startswith_word.
  - apply normalize_fixed.
  - intros Hs. destruct (startswith_prefix _ _ Hs) as [s' ->].
    unfold normalize.
    change (startswith (py "/") (py "/word/" ++ s')) with true. cbv iota.
    change (drop 1 (py "/word/" ++ s')) with (py "word/" ++ s').
    by rewrite (startswith_app (py "word/")).
  - intros H1 H2. unfold normalize. by rewrite H1, H2.
Qed.

Lemma rfind_snoc c p x :
  rfind c (p ++ [x])
  = if (x =? c)%N then Z.of_nat (length p) else rfind c p.
Proof.
  unfold rfind. rewrite imap_app, fold_left_app. simpl.
  by rewrite Nat.add_0_r.
Qed.

(** [rfind] gives the position of the last occurrence, or [-1] when there
    is none. *)
Lemma rfind_spec c p :
  (rfind c p = (-1)%Z ∧ c ∉ p)
  ∨ (∃ i, rfind c p = Z.of_nat i ∧ p !! i = Some c ∧ c ∉ drop (S i) p).
Proof.
  induction p as [|x p IH] using rev_ind.
  - left. split; [done | apply not_elem_of_nil].
  - rewrite rfind_snoc. destruct (N.eqb_spec x c) as [->|Hne].
    + right. exists (length p). split_and!; [done | |].
      * by rewrite lookup_app_r, Nat.sub_diag.
      * rewrite drop_ge; [apply not_elem_of_nil|]. rewrite length_app. simpl. lia.
    + destruct IH as [[Hr Hc] | (i & Hr & Hi & Hc)].
      * left. split; [done|]. rewrite not_elem_of_app, list_elem_of_singleton.
        split; [done | congruence].
      * right. exists i. split_and!; [done | by apply lookup_app_l_Some |].
        pose proof (lookup_lt_Some _ _ _ Hi) as Hlt.
        rewrite drop_app_le by lia.
        rewrite not_elem_of_app, list_elem_of_singleton. split; [done | congruence].
Qed.

Lemma not_elem_of_drop {A} (x : A) n m (l : list A) :
  n ≤ m → x ∉ drop n l → x ∉ drop m l.
Proof.
  intros Hnm Hx Hin. apply Hx.
  replace m with (n + (m - n)) in Hin by lia. rewrite <- drop_drop in Hin.
  apply list_elem_of_lookup in Hin as [j Hj]. rewrite lookup_drop in Hj.
  by eapply list_elem_of_lookup_2.
Qed.

Lemma splitext_spec p :
  fst (splitext p) ++ snd (splitext p) = p
  ∧ (snd (splitext p) = [] ∨ well_formed_ext (snd (splitext p))).
Proof.
  unfold splitext.
  destruct ((rfind 47 p <? rfind 46 p)%Z && _) eqn:Hcond; simpl.
  - split; [apply take_drop|]. right.
    apply andb_true_iff in Hcond as [Hlt%Z.ltb_lt _].
    destruct (rfind_spec 46%N p) as [[Hd _] | (i & Hd & Hi & Hdot)].
    { destruct (rfind_spec 47%N p) as [[Hs _] | (j & Hs & _)]; lia. }
    rewrite Hd, Nat2Z.id.
    exists (drop (S i) p). split_and!; [|done|].
    + by rewrite (drop_S _ _ _ Hi).
    + destruct (rfind_spec 47%N p) as [[_ Hs] | (j & Hs & _ & Hsep)].
      * intros Hin. apply Hs. apply list_elem_of_lookup in Hin as [k Hk].
        rewrite lookup_drop in Hk. by eapply list_elem_of_lookup_2.
      * apply (not_elem_of_drop _ (S j)); [lia | done].
  - split; [apply app_nil_r | by left].
Qed.

Lemma ext_of_well_formed p : well_formed_ext (ext_of p).
Proof.
  unfold ext_of. destruct (splitext_spec p) as [_ [-> | Hwf]].
  - exists (py "bin"). split_and!; [done | |]; by_decide.
  - destruct Hwf as (rest & -> & ?). simpl. by exists rest.
Qed.

(** X2: the extension given to an extracted file is well formed whatever
    the container path: a dot, then characters with no further dot and no
    path separator; it is the end of the container path when that has an
    extension, and [.bin] otherwise. *)
Theorem extension_well_formed zip_path :
  well_formed_ext (ext_of zip_path)
  ∧ ((∃ stem, zip_path = stem ++ ext_of zip_path
              ∧ splitext zip_path = (stem, ext_of zip_path))
     ∨ (ext_of zip_path = py ".bin" ∧ splitext zip_path = (zip_path, []))).
Proof.
  split; [apply ext_of_well_formed|].
  destruct (splitext_spec zip_path) as [Hsplit Hext].
  unfold ext_of. destruct (splitext zip_path) as [stem e] eqn:Hs. simpl in *.
  destruct e as [|c e]; simpl.
  - right. rewrite app_nil_r in Hsplit. by subst.
  - left. by exists stem.
Qed.

(** ** Filenames are unique within a document *)

Lemma digits_of_uint_inj u v : digits_of_uint u = digits_of_uint v → u = v.
Proof.
  revert v. induction u; intros []; simpl; intros [=]; f_equal; auto.
Qed.

Lemma digits_of_uint_digits u : Forall is_digit (digits_of_uint u).
Proof.
  induction u; simpl; try apply Forall_nil_2;
    (apply Forall_cons; split; [unfold is_digit; lia | done]).
Qed.

Lemma digits_of_uint_pad k u :
  digits_of_uint (Nat.iter k D0 u) = replicate k 48%N ++ digits_of_uint u.
Proof. induction k as [|k IH]; simpl; [done|]. by rewrite IH. Qed.

Lemma of_uint_pad k u : Nat.of_uint (Nat.iter k D0 u) = Nat.of_uint u.
Proof. induction k as [|k IH]; simpl; [done|]. exact IH. Qed.

Lemma fmt02_as_uint n :
  fmt02 n
  = digits_of_uint (Nat.iter (2 - length (str_of_nat n)) D0 (Nat.to_uint n)).
Proof. unfold fmt02. by rewrite digits_of_uint_pad. Qed.

Lemma fmt02_inj n m : fmt02 n = fmt02 m → n = m.
Proof.
  rewrite !fmt02_as_uint. intros Heq%digits_of_uint_inj.
  apply (f_equal Nat.of_uint) in Heq.
  by rewrite !of_uint_pad, !DecimalNat.Unsigned.of_to in Heq.
Qed.

Lemma fmt02_digits n : Forall is_digit (fmt02 n).
Proof. rewrite fmt02_as_uint. apply digits_of_uint_digits. Qed.

(** Two strings of digits, each followed by a character that is not a
    digit: if the whole strings agree, so do the digits. *)
Lemma digits_prefix_inj (d1 d2 : pystr) x1 x2 r1 r2 :
  Forall is_digit d1 → Forall is_digit d2 → ¬ is_digit x1 → ¬ is_digit x2 →
  d1 ++ x1 :: r1 = d2 ++ x2 :: r2 → d1 = d2.
Proof.
  revert d2. induction d1 as [|c d1 IH]; intros [|c' d2] H1 H2 Hx1 Hx2; simpl.
  - done.
  - intros [= -> _]. by apply Forall_cons in H2 as [? _].
  - intros [= -> _]. by apply Forall_cons in H1 as [? _].
  - intros [= -> Heq]. f_equal.
    apply Forall_cons in H1 as [_ H1]. apply Forall_cons in H2 as [_ H2].
    by apply IH.
Qed.

Lemma image_name_inj base n m p q :
  image_name base n p = image_name base m q → n = m.
Proof.
  unfold image_name. intros Heq.
  do 2 apply app_inv_head in Heq.
  destruct (ext_of_well_formed p) as (rp & Hp & _).
  destruct (ext_of_well_formed q) as (rq & Hq & _).
  rewrite Hp, Hq in Heq. apply fmt02_inj.
  eapply digits_prefix_inj; [apply fmt02_digits.. | | | exact Heq];
    unfold is_digit; lia.
Qed.

Lemma elem_of_written_of z base paths name c :
  (name, c) ∈ written_of z base paths
  ↔ ∃ i p, paths !! i = Some p ∧ z !! p = Some c
           ∧ name = image_name base (S i) p.
Proof.
  induction paths as [|q paths IH] using rev_ind.
  - split; [by intros ?%elem_of_nil | by intros (i & p & ? & _)].
  - rewrite written_of_snoc, elem_of_app, IH. split.
    + intros [(i & p & Hi & Hz & Hn) | Hnew].
      * exists i, p. split_and!; [by apply lookup_app_l_Some | done | done].
      * destruct (z !! q) as [c'|] eqn:Hq; [|by apply elem_of_nil in Hnew].
        apply list_elem_of_singleton in Hnew as [= -> ->].
        exists (length paths), q. split_and!; [|done|done].
        by rewrite lookup_app_r, Nat.sub_diag.
    + intros (i & p & Hi & Hz & Hn).
      apply lookup_app_Some in Hi as [Hi | [Hlen Hi]].
      * left. by exists i, p.
      * apply list_lookup_singleton_Some in Hi as [Hi ->]. right.
        rewrite Hz. apply list_elem_of_singleton.
        rewrite Hn. do 3 f_equal. lia.
Qed.

Lemma written_of_NoDup z base paths : NoDup (fst <$> written_of z base paths).
Proof.
  induction paths as [|q paths IH] using rev_ind; [apply NoDup_nil_2|].
  rewrite written_of_snoc, fmap_app. apply NoDup_app. split_and!; [done| |].
  - intros name Hold Hnew.
    destruct (z !! q) as [c'|]; [|by apply elem_of_nil in Hnew].
    csimpl in Hnew. apply list_elem_of_singleton in Hnew as ->.
    apply list_elem_of_fmap in Hold as ([n c] & Hn & Hin). simpl in Hn.
    apply elem_of_written_of in Hin as (i & p & Hi & _ & ->).
    apply image_name_inj in Hn. apply lookup_lt_Some in Hi. lia.
  - destruct (z !! q); [apply NoDup_singleton | apply NoDup_nil_2].
Qed.

(** X3: within one document two different container paths never get the
    same external filename, so no extracted picture overwrites another:
    the names of the files written are pairwise distinct. *)
Theorem filenames_unique rels z base rid1 rid2 t1 t2 :
  dget rid1 (relid_to_target rels) = Some t1 →
  dget rid2 (relid_to_target rels) = Some t2 →
  normalize t1 ≠ normalize t2 →
  ∃ st,
    run_resolver z base (relid_to_target rels) = Ok st
    ∧ extract_images_from_docx rels z base
      = Ok (image_map st, sorted_by str_lt (elements (all_final_names st)))
    ∧ (∀ n1 n2, image_map st !! rid1 = Some n1 →
                image_map st !! rid2 = Some n2 → n1 ≠ n2)
    ∧ NoDup (fst <$> written st).
Proof.
  intros H1 H2 Hne.
  destruct (resolver_final rels z base)
    as (st & Hrun & Hext & Hop & Hcnt & Hwr & Hmap & Hdom).
  exists st. split_and!; [done | done | |].
  - intros n1 n2 Hn1 Hn2 ->.
    destruct (Hmap _ _ H1) as (i & Hi & Him1).
    destruct (Hmap _ _ H2) as (j & Hj & Him2).
    rewrite Hn1 in Him1. rewrite Hn2 in Him2. unfold outcome in *.
    destruct (z !! normalize t1); [|done]. destruct (z !! normalize t2); [|done].
    assert (Hij : S i = S j).
    { apply (image_name_inj base _ _ (normalize t1) (normalize t2)). congruence. }
    injection Hij as ->. congruence.
  - rewrite Hwr. apply written_of_NoDup.
Qed.

Lemma filenames_unique_witness :
  ∃ st,
    run_resolver sample_zip (py "doc") (relid_to_target sample_rels) = Ok st
    ∧ (∀ n1 n2, image_map st !! py "rId1" = Some n1 →
                image_map st !! py "rId5" = Some n2 → n1 ≠ n2).
Proof.
  destruct (filenames_unique sample_rels sample_zip (py "doc") (py "rId1")
              (py "rId5") (py "media/image1.png") (py "media/chart"))
    as (st & Hrun & _ & Hne & _); [reflexivity | reflexivity | by_decide |].
  exists st. split; [exact Hrun | exact Hne].
Defined.

(** ** The list of image files *)

Lemma insert_by_perm {A} (lt : A → A → bool) x l : insert_by lt x l ≡ₚ x :: l.
Proof.
  induction l as [|y l IH]; simpl; [done|].
  destruct (lt y x); [|done]. rewrite IH. apply perm_swap.
Qed.

Lemma sorted_by_perm {A} (lt : A → A → bool) l : sorted_by lt l ≡ₚ l.
Proof.
  unfold sorted_by. induction l as [|x l IH]; simpl; [done|].
  by rewrite insert_by_perm, IH.
Qed.

Lemma insert_by_str_sorted x l :
  StronglySorted (fun a b => str_lt b a = false) l →
  StronglySorted (fun a b => str_lt b a = false) (insert_by str_lt x l).
Proof.
  induction l as [|y l IH]; intros Hl; simpl.
  - apply SSorted_cons; [apply SSorted_nil | apply Forall_nil_2].
  - apply StronglySorted_inv in Hl as [Hl Hy].
    destruct (str_lt y x) eqn:Hyx.
    + apply SSorted_cons; [by apply IH|].
      rewrite insert_by_perm. apply Forall_cons. split; [|done].
      by apply str_lt_asym.
    + apply SSorted_cons; [by apply SSorted_cons|].
      apply Forall_cons. split; [done|].
      eapply Forall_impl; [exact Hy|]. intros w Hw. by eapply str_le_trans.
Qed.

Lemma sorted_by_str_sorted l :
  StronglySorted (fun a b => str_lt b a = false) (sorted_by str_lt l).
Proof.
  unfold sorted_by. induction l as [|x l IH]; simpl; [apply SSorted_nil|].
  by apply insert_by_str_sorted.
Qed.

(** X4: the list of image files returned for a document holds exactly the
    filenames that occur in the returned image map, each once, in
    strictly ascending order of code points. *)
Theorem image_files_sorted_range rels z base :
  ∃ im files,
    extract_images_from_docx rels z base = Ok (im, files)
    ∧ StronglySorted (fun a b => str_lt a b = true) files
    ∧ NoDup files
    ∧ ∀ name, name ∈ files ↔ ∃ rid, im !! rid = Some name.
Proof.
  destruct (run_resolver_ok rels z base) as (st & Hrun & Hinv).
  exists (image_map st), (sorted_by str_lt (elements (all_final_names st))).
  assert (Hnd : NoDup (sorted_by str_lt (elements (all_final_names st)))).
  { rewrite sorted_by_perm. apply NoDup_elements. }
  split_and!.
  - unfold extract_images_from_docx. by rewrite Hrun.
  - apply sorted_NoDup_strict; [apply sorted_by_str_sorted | done].
  - done.
  - intros name. rewrite sorted_by_perm, elem_of_elements.
    apply (inv_names _ _ _ _ Hinv).
Qed.

(** X5: the files written into the output folder are exactly the returned
    image files, one file per name; and the file a relationship is mapped
    to holds the bytes of the container entry the relationship points
    to. *)
Theorem written_files_match rels z base :
  ∃ st files,
    run_resolver z base (relid_to_target rels) = Ok st
    ∧ extract_images_from_docx rels z base = Ok (image_map st, files)
    ∧ NoDup (fst <$> written st)
    ∧ (∀ name, name ∈ files ↔ name ∈ (fst <$> written st))
    ∧ (∀ rid t c,
         dget rid (relid_to_target rels) = Some t →
         z !! normalize t = Some c →
         ∃ name, image_map st !! rid = Some name ∧ (name, c) ∈ written st)
    ∧ (∀ name c, (name, c) ∈ written st →
         ∃ rid t, dget rid (relid_to_target rels) = Some t
                  ∧ z !! normalize t = Some c
                  ∧ image_map st !! rid = Some name).
Proof.
  destruct (run_resolver_ok rels z base) as (st & Hrun & Hinv).
  pose proof (relid_to_target_NoDup rels) as Hkeys.
  set (items := relid_to_target rels) in *.
  assert (Hback : ∀ name c, (name, c) ∈ written st →
            ∃ rid t, dget rid items = Some t ∧ z !! normalize t = Some c
                     ∧ image_map st !! rid = Some name).
  { intros name c Hin. rewrite (inv_written _ _ _ _ Hinv) in Hin.
    apply elem_of_written_of in Hin as (i & p & Hi & Hz & ->).
    assert (Hp : p ∈ zip_paths items).
    { apply elem_of_first_seen. rewrite <- (inv_opened _ _ _ _ Hinv).
      by eapply list_elem_of_lookup_2. }
    apply list_elem_of_fmap in Hp as ([rid t] & -> & Hitem). simpl in *.
    exists rid, t. split_and!; [by apply elem_of_dget | done |].
    destruct (inv_map _ _ _ _ Hinv rid t Hitem) as (j & Hj & ->).
    assert (j = i) as ->
      by (eapply NoDup_lookup; [apply (inv_nodup _ _ _ _ Hinv) | done | done]).
    unfold outcome. by rewrite Hz. }
  assert (Hforth : ∀ rid t c, dget rid items = Some t →
            z !! normalize t = Some c →
            ∃ name, image_map st !! rid = Some name ∧ (name, c) ∈ written st).
  { intros rid t c Hget Hz.
    destruct (inv_map _ _ _ _ Hinv rid t (dget_Some_elem_of _ _ _ Hget))
      as (i & Hi & Him).
    unfold outcome in Him. rewrite Hz in Him.
    eexists. split; [exact Him|].
    rewrite (inv_written _ _ _ _ Hinv). apply elem_of_written_of.
    by exists i, (normalize t). }
  exists st, (sorted_by str_lt (elements (all_final_names st))).
  split_and!; [done | | | | done | done].
  - unfold extract_images_from_docx. fold items. by rewrite Hrun.
  - rewrite (inv_written _ _ _ _ Hinv). apply written_of_NoDup.
  - intros name. rewrite sorted_by_perm, elem_of_elements.
    rewrite (inv_names _ _ _ _ Hinv). split.
    + intros [rid Hrid].
      destruct (dget rid items) as [t|] eqn:Hget.
      * destruct (inv_map _ _ _ _ Hinv rid t (dget_Some_elem_of _ _ _ Hget))
          as (i & Hi & Him).
        rewrite Hrid in Him. unfold outcome in Him.
        destruct (z !! normalize t) as [c|] eqn:Hz; [|done].
        destruct (Hforth rid t c Hget Hz) as (name' & Hname' & Hin).
        assert (name' = name) as -> by congruence.
        apply list_elem_of_fmap. by exists (name, c).
      * apply dget_None in Hget.
        by rewrite (inv_map_dom _ _ _ _ Hinv rid Hget) in Hrid.
    + intros ([n c] & -> & Hin)%list_elem_of_fmap.
      destruct (Hback n c Hin) as (rid & t & _ & _ & Hrid). by exists rid.
Qed.

(** ** Relationships that are not images *)

Lemma startswith_spec p s : startswith p s = true ↔ ∃ b, s = p ++ b.
Proof.
  split; [apply startswith_prefix | intros [b ->]; apply startswith_app].
Qed.

(** [contains] is the substring test. *)
Lemma contains_spec p s : contains p s = true ↔ ∃ a b, s = a ++ p ++ b.
Proof.
  induction s as [|c s IH].
  - simpl. rewrite orb_false_r, startswith_spec. split.
    + intros [b Hb]. by exists [], b.
    + intros (a & b & Hab). destruct a; [by exists b|done].
  - cbn [contains]. rewrite orb_true_iff, startswith_spec, IH. split.
    + intros [[b Hb] | (a & b & ->)]; [by exists [], b | by exists (c :: a), b].
    + intros ([|c' a] & b & Hab); simpl in Hab.
      * left. by exists b.
      * injection Hab as -> ->. right. by exists a, b.
Qed.

Lemma relid_to_target_None rels rid :
  (∀ r, r ∈ rels → rId r = rid → contains (py "image") (reltype r) = false) →
  dget rid (relid_to_target rels) = None.
Proof.
  unfold relid_to_target.
  assert (Hgen : ∀ d, dget rid d = None →
    (∀ r, r ∈ rels → rId r = rid → contains (py "image") (reltype r) = false) →
    dget rid (fold_left (fun d (r : rel) =>
       if contains (py "image") (reltype r)
       then dset (rId r) (target_ref r) d else d) rels d) = None).
  { induction rels as [|r rels IH]; intros d Hd Hrels; simpl; [done|].
    apply IH.
    - destruct (contains _ _) eqn:Hc; [|done].
      rewrite dget_dset_ne; [done|]. intros Hr.
      rewrite (Hrels r) in Hc; [done | apply list_elem_of_here | done].
    - intros r' Hr'. by apply Hrels, list_elem_of_further. }
  by apply Hgen.
Qed.

(** X6: a relationship identifier that no image relationship carries
    (the type of every relationship with that identifier lacks the
    substring [image]) never gets a filename, whatever its target: a
    drawing that refers to it is rendered without a placeholder. *)
Theorem non_image_relationship_ignored rels z base rid :
  (∀ r, r ∈ rels → rId r = rid →
        ¬ ∃ a b, reltype r = a ++ py "image" ++ b) →
  ∃ im files,
    extract_images_from_docx rels z base = Ok (im, files)
    ∧ im !! rid = None
    ∧ ∀ out, drawing_step im out (Drawing (Some (Blip (Some rid)))) = out.
Proof.
  intros Hrels.
  destruct (resolver_final rels z base)
    as (st & Hrun & Hext & Hop & Hcnt & Hwr & Hmap & Hdom).
  assert (Hrid : image_map st !! rid = None).
  { apply Hdom, relid_to_target_None. intros r Hr Hid.
    destruct (contains (py "image") (reltype r)) eqn:Hc; [|done].
    apply contains_spec in Hc. by destruct (Hrels r Hr Hid). }
  eexists _, _. split_and!; [exact Hext | exact Hrid |].
  intros out. apply drawing_step_unresolved. simpl. by intros b r [= <-] [= <-].
Qed.

Lemma non_image_relationship_ignored_witness :
  ∃ im files,
    extract_images_from_docx sample_rels sample_zip (py "doc") = Ok (im, files)
    ∧ im !! py "rId4" = None.
Proof.
  destruct (non_image_relationship_ignored sample_rels sample_zip (py "doc")
              (py "rId4")) as (im & files & Hext & Hrid & _).
  - intros r Hr Hid Hsub. apply contains_spec in Hsub.
    unfold sample_rels in Hr.
    repeat (apply elem_of_cons in Hr as [-> | Hr];
            [vm_compute in Hid; vm_compute in Hsub; discriminate|]).
    by apply elem_of_nil in Hr.
  - exists im, files. split; [exact Hext | exact Hrid].
Defined.

(** ** Rendering *)

(** A run of whitespace at the start of a string ends before the first
    character that is not whitespace. *)
Lemma whitespace_prefix_split (a x pre : pystr) c y :
  Forall (fun w => isspace w = true) a → isspace c = false →
  a ++ x = pre ++ c :: y →
  ∃ k, pre = a ++ k ∧ x = k ++ c :: y.
Proof.
  revert pre. induction a as [|w a IH]; intros pre Ha Hc Heq; simpl in *.
  - by exists pre.
  - apply Forall_cons in Ha as [Hw Ha]. destruct pre as [|w' pre]; simpl in Heq.
    + injection Heq as -> _. congruence.
    + injection Heq as -> Heq. destruct (IH pre Ha Hc Heq) as (k & -> & ->).
      by exists k.
Qed.

(** Trimming keeps every part of a string that starts and ends with a
    character that is not whitespace. *)
Lemma strip_keeps_infix (s pre mid post : pystr) c1 c2 m :
  mid = c1 :: m → last mid = Some c2 →
  isspace c1 = false → isspace c2 = false →
  s = pre ++ mid ++ post →
  ∃ pre' post', strip s = pre' ++ mid ++ post'.
Proof.
  intros Hmid Hlast Hc1 Hc2 Hs.
  destruct (strip_split s) as (a & b & Hsplit & Ha & Hb).
  generalize dependent (strip s). intros out Hsplit.
  rewrite Hs, Hmid in Hsplit. symmetry in Hsplit.
  destruct (whitespace_prefix_split _ _ _ _ _ Ha Hc1 Hsplit) as (k & Hpre & Hrest).
  change (out ++ b = k ++ (c1 :: m) ++ post) in Hrest. rewrite <- Hmid in Hrest.
  (* the same from the right, on the reversed strings *)
  assert (Hrev : reverse b ++ reverse out
                 = reverse post ++ c2 :: (reverse (removelast mid) ++ reverse k)).
  { rewrite <- reverse_app, Hrest, !reverse_app.
    assert (Hm : mid = removelast mid ++ [c2]).
    { rewrite Hmid in Hlast |- *. clear -Hlast.
      revert c1 Hlast. induction m as [|x m IH]; intros c1 Hlast.
      - simpl in *. by injection Hlast as ->.
      - change (removelast (c1 :: x :: m)) with (c1 :: removelast (x :: m)).
        simpl. f_equal. apply IH. exact Hlast. }
    rewrite Hm at 1. rewrite reverse_app, reverse_singleton.
    by rewrite <- !app_assoc. }
  apply Forall_reverse in Hb.
  destruct (whitespace_prefix_split _ _ _ _ _ Hb Hc2 Hrev) as (k2 & _ & Hout).
  apply (f_equal reverse) in Hout. rewrite reverse_involutive in Hout.
  exists k, (reverse k2). rewrite Hout.
  rewrite reverse_app, reverse_cons, reverse_app, !reverse_involutive.
  assert (Hm : removelast mid ++ [c2] = mid).
  { rewrite Hmid in Hlast |- *. clear -Hlast.
    revert c1 Hlast. induction m as [|x m IH]; intros c1 Hlast.
    - simpl in *. by injection Hlast as ->.
    - change (removelast (c1 :: x :: m)) with (c1 :: removelast (x :: m)).
      simpl. f_equal. apply IH. exact Hlast. }
  by rewrite <- !app_assoc, (app_assoc (removelast mid)), Hm.
Qed.

Lemma placeholder_ends f :
  ∃ m, placeholder f = 91%N :: m ∧ last (placeholder f) = Some 93%N.
Proof.
  unfold placeholder. eexists. split; [reflexivity|].
  change (py "]]") with ([93%N] ++ [93%N]).
  rewrite !app_assoc. apply last_snoc.
Qed.

(** X7: trimming never cuts into a placeholder: the placeholder of every
    drawing that resolves to a filename occurs whole in the rendered
    paragraph. *)
Theorem placeholder_survives_trimming p im r d f :
  r ∈ runs p → d ∈ run_drawings r → resolved im d = Some f →
  ∃ pre post,
    extract_paragraph_with_images p im
    = pre ++ (py "[[image:" ++ f ++ py "]]") ++ post.
Proof.
  intros Hr Hd Hf. rewrite extract_paragraph_spec. unfold spec_render_paragraph.
  destruct (placeholder_ends f) as (m & Hm & Hlast).
  (* the placeholder occurs in the contribution of its run *)
  assert (Hocc : ∃ pre post,
            concat (spec_run_contribution im <$> runs p)
            = pre ++ placeholder f ++ post).
  { apply list_elem_of_split in Hr as (rs1 & rs2 & ->).
    assert (Hin : f ∈ omap (resolved im) (run_drawings r))
      by (apply list_elem_of_omap; eauto).
    apply list_elem_of_split in Hin as (fs1 & fs2 & Hfs).
    assert (Hcontrib : spec_run_contribution im r
                       = concat (placeholder <$> fs1) ++ placeholder f
                         ++ concat (placeholder <$> fs2)).
    { unfold spec_run_contribution.
      destruct (run_drawings r) as [|d0 ds] eqn:Hds; [by apply elem_of_nil in Hd|].
      rewrite Hfs, fmap_app, fmap_cons, concat_app. reflexivity. }
    exists (concat (spec_run_contribution im <$> rs1)
            ++ concat (placeholder <$> fs1)),
           (concat (placeholder <$> fs2)
            ++ concat (spec_run_contribution im <$> rs2)).
    rewrite fmap_app, fmap_cons, concat_app.
    change (concat (spec_run_contribution im r
                    :: (spec_run_contribution im <$> rs2)))
      with (spec_run_contribution im r
            ++ concat (spec_run_contribution im <$> rs2)).
    rewrite Hcontrib. generalize (placeholder f). intros ph.
    rewrite <- !app_assoc. reflexivity. }
  destruct Hocc as (pre & post & Hocc).
  exact (strip_keeps_infix _ pre (placeholder f) post 91%N 93%N m Hm Hlast
           eq_refl eq_refl Hocc).
Qed.

Lemma placeholder_survives_trimming_witness :
  ∃ pre post,
    extract_paragraph_with_images (image_par "rId1") sample_image_map
    = pre ++ (py "[[image:" ++ py "doc_Image01.png" ++ py "]]") ++ post.
Proof.
  apply (placeholder_survives_trimming (image_par "rId1") sample_image_map
           (Run [Drawing (Some (Blip (Some (py "rId1"))))] (py "stray"))
           (Drawing (Some (Blip (Some (py "rId1")))))).
  - apply list_elem_of_further, list_elem_of_here.
  - apply list_elem_of_here.
  - vm_compute. reflexivity.
Defined.

(** ** Rows that give no record *)

Lemma omap_nil_iff {A B} (f : A → option B) l :
  omap f l = [] ↔ ∀ x, x ∈ l → f x = None.
Proof.
  induction l as [|x l IH]; csimpl.
  - split; [intros _ x Hx; by apply elem_of_nil in Hx | done].
  - destruct (f x) eqn:Hfx.
    + split; [done|]. intros Hall.
      specialize (Hall x (list_elem_of_here _ _)). congruence.
    + rewrite IH. split.
      * intros Hall y [->|Hy]%elem_of_cons; [done | by apply Hall].
      * intros Hall y Hy. by apply Hall, list_elem_of_further.
Qed.

Lemma spec_line_None im p :
  spec_line im p = None ↔ extract_paragraph_with_images p im = [].
Proof.
  unfold spec_line. by destruct (extract_paragraph_with_images p im).
Qed.

Lemma spec_cell_text_nil im c :
  spec_cell_text im c = []
  ↔ ∀ p, p ∈ paragraphs c → extract_paragraph_with_images p im = [].
Proof.
  split.
  - intros Hnil p Hp. apply spec_line_None.
    revert p Hp. apply omap_nil_iff.
    unfold spec_cell_text in Hnil.
    destruct (omap (spec_line im) (paragraphs c)) as [|l ls] eqn:Hlines; [done|].
    exfalso.
    assert (Hl : visible l).
    { assert (Hin : l ∈ omap (spec_line im) (paragraphs c))
        by (rewrite Hlines; apply list_elem_of_here).
      apply list_elem_of_omap in Hin as (p & _ & Hp).
      by eapply spec_line_visible. }
    pose proof (visible_nonempty _ (join_visible [10%N] l ls Hl)) as Hne.
    by rewrite Hnil in Hne.
  - intros Hall. unfold spec_cell_text.
    assert (Hnone : omap (spec_line im) (paragraphs c) = []).
    { apply omap_nil_iff. intros p Hp. by apply spec_line_None, Hall. }
    by rewrite Hnone.
Qed.

Lemma spec_cell_title_nil im c :
  spec_cell_title im c = []
  ↔ ∀ p, p ∈ paragraphs c → extract_paragraph_with_images p im = [].
Proof.
  unfold spec_cell_title.
  set (renders := (fun p => extract_paragraph_with_images p im) <$> paragraphs c).
  split.
  - intros Hnil p Hp.
    destruct (extract_paragraph_with_images p im) as [|ch s] eqn:Hrender; [done|].
    exfalso.
    assert (Hin : (ch :: s) ∈ filter (fun s => nonempty s = true) renders).
    { apply list_elem_of_filter. split; [done|].
      apply list_elem_of_fmap. exists p. by rewrite Hrender. }
    destruct (filter (fun s => nonempty s = true) renders) as [|l ls] eqn:Hf;
      [by apply elem_of_nil in Hin|].
    assert (Hl : visible l).
    { assert (Hl : l ∈ filter (fun s => nonempty s = true) renders)
        by (rewrite Hf; apply list_elem_of_here).
      apply list_elem_of_filter in Hl as [Hne Hl].
      apply list_elem_of_fmap in Hl as (q & -> & _).
      by apply extract_paragraph_visible. }
    pose proof (join_visible [32%N] l ls Hl) as Hvis.
    apply nonempty_strip in Hvis. by rewrite Hnil in Hvis.
  - intros Hall.
    assert (Hf : filter (fun s => nonempty s = true) renders = []).
    { apply elem_of_nil_inv. intros s [Hne Hs]%list_elem_of_filter.
      apply list_elem_of_fmap in Hs as (p & -> & Hp).
      by rewrite (Hall p Hp) in Hne. }
    by rewrite Hf.
Qed.

(** X8: a row leaves the list of records as it is exactly when it has
    fewer than two cells or every paragraph of its first two cells
    renders to the empty string (only whitespace and pictures that did not
    resolve); any other row adds exactly one record at the end. *)
Theorem row_skipped_iff_blank im cards r :
  (row_step im cards r = cards
   ↔ length (cells r) < 2
     ∨ ∃ c0 c1 rest,
         cells r = c0 :: c1 :: rest
         ∧ (∀ p, p ∈ paragraphs c0 → extract_paragraph_with_images p im = [])
         ∧ (∀ p, p ∈ paragraphs c1 → extract_paragraph_with_images p im = []))
  ∧ (row_step im cards r = cards
     ∨ ∃ c0 c1 rest,
         cells r = c0 :: c1 :: rest
         ∧ row_step im cards r
           = cards ++ [Card (extract_cell_title_with_images c0 im)
                            (extract_cell_text_preserve_lists_and_images c1 im)]).
Proof.
  rewrite row_step_spec. unfold spec_card.
  destruct (cells r) as [|c0 [|c1 rest]] eqn:Hcells; simpl.
  - rewrite app_nil_r. split; [|by left]. split; [intros _; left; lia | done].
  - rewrite app_nil_r. split; [|by left]. split; [intros _; left; lia | done].
  - rewrite nonempty_strip_cell_text, nonempty_strip_cell_title.
    rewrite <- !extract_cell_title_spec, <- !extract_cell_text_spec.
    destruct (extract_cell_title_with_images c0 im) as [|a t] eqn:Ht;
      [destruct (extract_cell_text_preserve_lists_and_images c1 im) as [|b dt]
         eqn:Hd|]; simpl.
    + rewrite app_nil_r. split; [|by left]. split; [|done]. intros _. right.
      exists c0, c1, rest. split_and!; [done | |].
      * apply spec_cell_title_nil. by rewrite <- extract_cell_title_spec.
      * apply spec_cell_text_nil. by rewrite <- extract_cell_text_spec.
    + split; [|right; exists c0, c1, rest; split;
                [reflexivity | by rewrite ?Ht, ?Hd]]. split.
      * intros Heq. apply (f_equal length) in Heq.
        rewrite length_app in Heq. simpl in Heq. lia.
      * intros [Hlen | (c0' & c1' & rest' & [= <- <- <-] & _ & Hd')]; [lia|].
        apply spec_cell_text_nil in Hd'.
        rewrite <- extract_cell_text_spec in Hd'. congruence.
    + split; [|right; exists c0, c1, rest; split;
                [reflexivity | by rewrite ?Ht, ?Hd]]. split.
      * intros Heq. apply (f_equal length) in Heq.
        rewrite length_app in Heq. simpl in Heq. lia.
      * intros [Hlen | (c0' & c1' & rest' & [= <- <- <-] & Ht' & _)]; [lia|].
        apply spec_cell_title_nil in Ht'.
        rewrite <- extract_cell_title_spec in Ht'. congruence.
Qed.

(** ** Loading a manifest *)

Lemma path_is_true s o : path_is s o = true ↔ dget (py "path") o = Some (JStr s).
Proof.
  unfold path_is. destruct (dget (py "path") o) as [[| | |s'| |]|]; try by split.
  rewrite bool_decide_eq_true. split; [by intros -> | by intros [= ->]].
Qed.

Lemma foldM_cons {A S} (f : S → A → result S) x l s :
  foldM f (x :: l) s = (s' ← f s x; foldM f l s').
Proof. reflexivity. Qed.

Lemma load_step_keyed index o c s :
  dget (py "path") o = Some (JStr (c :: s)) →
  load_step index (JObj o) = Ok (dset (HStr (c :: s)) o index).
Proof. intros Hp. unfold load_step, py_get, dget_default. by rewrite Hp. Qed.

Lemma foldM_load_step_lookup objs index0 :
  Forall (fun o => str_path_entry (JObj o)) objs →
  ∃ index,
    foldM load_step (JObj <$> objs) index0 = Ok index
    ∧ (∀ s, s ≠ [] →
         dget (HStr s) index
         = match last (filter (fun o => path_is s o = true) objs) with
           | Some o => Some o
           | None => dget (HStr s) index0
           end)
    ∧ (∀ k, (∀ s, s ≠ [] → k ≠ HStr s) → dget k index = dget k index0).
Proof.
  revert index0. induction objs as [|o objs IH]; intros index0 Hobjs.
  - exists index0. by split_and!.
  - apply Forall_cons in Hobjs as [(o' & [= <-] & Hpath) Hobjs].
    assert (Hskip : load_step index0 (JObj o) = Ok index0 →
              (∀ s, s ≠ [] → path_is s o = false) →
              ∃ index,
                foldM load_step (JObj <$> o :: objs) index0 = Ok index
                ∧ (∀ s, s ≠ [] →
                     dget (HStr s) index
                     = match last (filter (fun o => path_is s o = true) (o :: objs)) with
                       | Some o => Some o
                       | None => dget (HStr s) index0
                       end)
                ∧ (∀ k, (∀ s, s ≠ [] → k ≠ HStr s) → dget k index = dget k index0)).
    { intros Hstep Hno. destruct (IH index0 Hobjs) as (index & Hfold & Hlook & Hother).
      exists index. rewrite fmap_cons, foldM_cons, Hstep.
      split_and!; [done | | done].
      intros s Hs. rewrite filter_cons_False; [by apply Hlook|].
      rewrite (Hno s Hs). done. }
    destruct Hpath as [Hnone | [s0 Hs0]].
    + apply Hskip.
      * unfold load_step, py_get, dget_default. by rewrite Hnone.
      * intros s _. unfold path_is. by rewrite Hnone.
    + destruct s0 as [|c s0].
      * apply Hskip.
        -- unfold load_step, py_get, dget_default. by rewrite Hs0.
        -- intros s Hs. unfold path_is. rewrite Hs0.
           apply bool_decide_eq_false. congruence.
      * destruct (IH (dset (HStr (c :: s0)) o index0) Hobjs)
          as (index & Hfold & Hlook & Hother).
        exists index. split_and!.
        -- rewrite fmap_cons, foldM_cons, (load_step_keyed _ _ _ _ Hs0).
           exact Hfold.
        -- intros s Hs. rewrite (Hlook s Hs), filter_cons.
           destruct (decide (path_is s o = true)) as [Hyes|Hno].
           ++ apply path_is_true in Hyes. rewrite Hs0 in Hyes.
              injection Hyes as <-. rewrite last_cons, dget_dset_eq.
              by destruct (last _).
           ++ rewrite dget_dset_ne; [done|]. intros [= Heq]. apply Hno.
              apply path_is_true. by rewrite Hs0, Heq.
        -- intros k Hk. rewrite (Hother k Hk), dget_dset_ne; [done|].
           intros Heq. by apply (Hk (c :: s0)).
Qed.

(** X9: when the files of a manifest are objects whose path, if any, is a
    string, the index holds under each non-empty path the last entry of
    the list with that path (an earlier entry with the same path is
    replaced) and nothing else: entries that have no path or an empty
    path are left out of the index. *)
Theorem load_manifest_last_entry_wins (fs : filesystem) manifest_path o objs :
  fs !! manifest_path = Some (Parsed (JObj o)) →
  dget (py "files") o = Some (JArr (JObj <$> objs)) →
  Forall (fun e => str_path_entry (JObj e)) objs →
  ∃ index,
    load_manifest fs manifest_path = Ok (JObj o, index)
    ∧ (∀ s, s ≠ [] →
         dget (HStr s) index
         = last (filter (fun e => path_is s e = true) objs))
    ∧ (∀ k, (∀ s, s ≠ [] → k ≠ HStr s) → dget k index = None)
    ∧ (∀ e, e ∈ dvalues index → e ∈ objs ∧ ∃ s, s ≠ [] ∧ path_is s e = true).
Proof.
  intros Hfs Hfiles Hobjs.
  destruct (foldM_load_step_lookup objs [] Hobjs) as (index & Hfold & Hlook & Hother).
  exists index. split_and!.
  - unfold load_manifest. rewrite Hfs. simpl. unfold dget_default.
    rewrite Hfiles. simpl. by rewrite Hfold.
  - intros s Hs. rewrite (Hlook s Hs). by destruct (last _).
  - intros k Hk. by rewrite (Hother k Hk).
  - intros e He. unfold dvalues in He.
    apply list_elem_of_fmap in He as ([k e'] & -> & Hin). simpl.
    assert (Hget : dget k index = Some e').
    { apply elem_of_dget; [|done].
      destruct (foldM_load_step_str_paths (JObj <$> objs) [] NoDup_nil_2
                  str_paths_nil) as (index' & Hfold' & Hnd & _).
      - apply Forall_fmap. by eapply Forall_impl; [exact Hobjs|].
      - rewrite Hfold in Hfold'. by injection Hfold' as <-. }
    destruct k as [|n|s].
    + rewrite Hother in Hget; [done|]. by intros s _.
    + rewrite Hother in Hget; [done|]. by intros s _.
    + destruct s as [|c s]; [rewrite Hother in Hget; [done|]; by intros s Hs [= <-]|].
      rewrite Hlook in Hget by done.
      destruct (last _) as [e''|] eqn:Hlast; [|done].
      injection Hget as ->.
      apply last_Some_elem_of, list_elem_of_filter in Hlast as [Hp He].
      split; [done|]. by exists (c :: s).
Qed.

Lemma load_manifest_last_entry_wins_witness :
  ∃ index,
    load_manifest sample_fs (py "out/manifest.json")
    = Ok (JObj [(py "generated_at", JStr (py "2024-01-01T00:00:00+00:00"));
                (py "files", JArr (JObj <$> dvalues sample_index))],
          index)
    ∧ dget (HStr (py "doc.json")) index
      = last (filter (fun e => path_is (py "doc.json") e = true)
                     (dvalues sample_index)).
Proof.
  destruct (load_manifest_last_entry_wins sample_fs (py "out/manifest.json")
              [(py "generated_at", JStr (py "2024-01-01T00:00:00+00:00"));
               (py "files", JArr (JObj <$> dvalues sample_index))]
              (dvalues sample_index))
    as (index & Hload & Hlook & _).
  - reflexivity.
  - reflexivity.
  - repeat (apply Forall_cons; split;
            [eexists; split; [reflexivity|]; right; eexists; reflexivity|]).
    apply Forall_nil_2.
  - exists index. split; [exact Hload|]. apply Hlook. discriminate.
Defined.

(** ** Saving, and loading what was saved *)

Lemma str_paths_entry index k e :
  str_paths index → dget k index = Some e → str_path_entry (JObj e).
Proof.
  intros Hwf Hk. destruct (Hwf _ _ Hk) as (s & _ & Hs).
  exists e. split; [done|]. right. by exists s.
Qed.

(** X10: if the file written by [save_manifest] is read back, that is,
    [json.load] returns the saved data, then [load_manifest] rebuilds an
    index with the same entry under every key, for an index whose entries
    sit under their own non-empty string path; the saved data carries the
    new timestamp and keeps every other top-level field of the loaded
    manifest. *)
Theorem manifest_reload (now : pystr) (manifest_data : entry)
    (index : manifest_index) (saved : entry) (fs : filesystem)
    (manifest_path : pystr) :
  NoDup (dkeys index) → str_paths index → dget (HStr []) index = None →
  save_manifest now manifest_data index = Ok saved →
  fs !! manifest_path = Some (Parsed (JObj saved)) →
  ∃ index',
    load_manifest fs manifest_path = Ok (JObj saved, index')
    ∧ (∀ k, dget k index' = dget k index)
    ∧ dget (py "generated_at") saved = Some (JStr now)
    ∧ (∀ k, k ≠ py "generated_at" → k ≠ py "files" →
         dget k saved = dget k manifest_data).
Proof.
  intros Hnd Hwf Hempty Hsave Hfs. unfold save_manifest in Hsave.
  destruct (sortedM_str (dvalues index) (values_str_keyed _ Hnd Hwf))
    as (files & Hsort & Hperm & _).
  fold entry_lt in Hsave. rewrite Hsort in Hsave. simpl in Hsave.
  injection Hsave as <-.
  assert (Hobjs : Forall (fun e => str_path_entry (JObj e)) files).
  { rewrite Hperm. apply Forall_forall. intros e He. unfold dvalues in He.
    apply list_elem_of_fmap in He as ([k e'] & -> & Hin).
    eapply str_paths_entry; [done|]. by apply elem_of_dget. }
  destruct (foldM_load_step_lookup files [] Hobjs)
    as (index' & Hfold & Hlook & Hother).
  exists index'. split_and!.
  - unfold load_manifest. rewrite Hfs. simpl. unfold dget_default.
    rewrite dget_dset_eq. simpl. by rewrite Hfold.
  - intros k. destruct k as [|n|s].
    + rewrite Hother by (by intros s _).
      destruct (dget HNone index) eqn:Hk; [|done].
      by destruct (Hwf _ _ Hk) as (s & ? & _).
    + rewrite Hother by (by intros s _).
      destruct (dget (HInt n) index) eqn:Hk; [|done].
      by destruct (Hwf _ _ Hk) as (s & ? & _).
    + destruct s as [|c s].
      { rewrite Hother; [by rewrite Hempty|]. by intros s Hs [= <-]. }
      rewrite Hlook by done.
      destruct (last _) as [e|] eqn:Hlast.
      * apply last_Some_elem_of, list_elem_of_filter in Hlast as [Hp He].
        apply path_is_true in Hp. rewrite Hperm in He. unfold dvalues in He.
        apply list_elem_of_fmap in He as ([k e'] & -> & Hin). simpl in *.
        apply elem_of_dget in Hin; [|done].
        destruct (Hwf _ _ Hin) as (s' & -> & Hs').
        rewrite Hp in Hs'. injection Hs' as <-. by rewrite Hin.
      * simpl. apply last_None in Hlast.
        destruct (dget (HStr (c :: s)) index) as [e|] eqn:Hk; [|done].
        exfalso.
        assert (He : e ∈ filter (fun e => path_is (c :: s) e = true) files).
        { apply list_elem_of_filter. split.
          - apply path_is_true. by destruct (Hwf _ _ Hk) as (s' & [= <-] & ?).
          - rewrite Hperm. by eapply dget_elem_of_dvalues. }
        rewrite Hlast in He. by apply elem_of_nil in He.
  - rewrite dget_dset_ne by done. apply dget_dset_eq.
  - intros k Hk1 Hk2. by rewrite !dget_dset_ne.
Qed.

Lemma manifest_reload_witness :
  ∃ saved index',
    save_manifest (py "2025-02-02T00:00:01+00:00") [] sample_index = Ok saved
    ∧ load_manifest {[ py "out/manifest.json" := Parsed (JObj saved) ]}
                    (py "out/manifest.json")
      = Ok (JObj saved, index')
    ∧ ∀ k, dget k index' = dget k sample_index.
Proof.
  destruct (save_manifest (py "2025-02-02T00:00:01+00:00") [] sample_index)
    as [saved|e] eqn:Hsave; [|by vm_compute in Hsave].
  assert (Hnd : NoDup (dkeys sample_index)) by by_decide.
  assert (Hwf : str_paths sample_index).
  { intros k e Hk. unfold sample_index in Hk. simpl in Hk.
    repeat case_decide; simplify_eq; eexists; (split; [reflexivity|]);
      reflexivity. }
  destruct (manifest_reload (py "2025-02-02T00:00:01+00:00") [] sample_index
              saved {[ py "out/manifest.json" := Parsed (JObj saved) ]}
              (py "out/manifest.json") Hnd Hwf)
    as (index' & Hload & Hsame & _); [reflexivity | exact Hsave | |].
  - apply lookup_singleton_eq.
  - exists saved, index'. split; [reflexivity|]. split; [exact Hload | exact Hsame].
Defined.

(** ** Paths that cannot be ordered *)

Lemma entry_lt_Ok a b x :
  entry_lt a b = Ok x →
  (str_keyed a ∧ str_keyed b) ∨ (int_keyed a ∧ int_keyed b).
Proof.
  unfold entry_lt, str_keyed, int_keyed.
  destruct (path_key a), (path_key b); simpl; intros Hx; try done;
    (left; split; by eexists) || (by right).
Qed.

Lemma entry_lt_Raise a b e : entry_lt a b = Raise e → e = TypeError.
Proof.
  unfold entry_lt. destruct (path_key a), (path_key b); simpl; congruence.
Qed.

Lemma str_int_keyed_excl e : str_keyed e → int_keyed e → False.
Proof. unfold str_keyed, int_keyed. intros [s ->]. done. Qed.

Lemma insertM_entry_Raise x l e : insertM entry_lt x l = Raise e → e = TypeError.
Proof.
  induction l as [|y l IH]; [done|]. rewrite insertM_cons.
  destruct (entry_lt y x) as [b|e'] eqn:Hcmp.
  - change (mbind ?f (Ok b)) with (f b). cbv beta. destruct b; [|done].
    destruct (insertM entry_lt x l) as [r|e'] eqn:Hins; [done|].
    intros [= <-]. by apply IH.
  - intros [= <-]. by eapply entry_lt_Raise.
Qed.

Lemma insertM_entry_perm x l r : insertM entry_lt x l = Ok r → r ≡ₚ x :: l.
Proof.
  revert r. induction l as [|y l IH]; intros r.
  - by intros [= <-].
  - rewrite insertM_cons. destruct (entry_lt y x) as [b|e'] eqn:Hcmp; [|done].
    change (mbind ?f (Ok b)) with (f b). cbv beta. destruct b.
    + destruct (insertM entry_lt x l) as [r'|e'] eqn:Hins; [|done].
      intros [= <-]. rewrite (IH r' eq_refl). apply perm_swap.
    + by intros [= <-].
Qed.

Lemma sortedM_cons {A} (lt : A → A → result bool) x l :
  sortedM lt (x :: l) = (s ← sortedM lt l; insertM lt x s).
Proof. reflexivity. Qed.

Lemma sortedM_entry_Raise l e : sortedM entry_lt l = Raise e → e = TypeError.
Proof.
  induction l as [|x l IH]; [done|]. rewrite sortedM_cons.
  destruct (sortedM entry_lt l) as [s|e'] eqn:Hs.
  - apply insertM_entry_Raise.
  - intros [= <-]. by apply IH.
Qed.

Lemma sortedM_entry_perm l r : sortedM entry_lt l = Ok r → r ≡ₚ l.
Proof.
  revert r. induction l as [|x l IH]; intros r.
  - by intros [= <-].
  - rewrite sortedM_cons. destruct (sortedM entry_lt l) as [s|e'] eqn:Hs; [|done].
    intros Hins%insertM_entry_perm. by rewrite Hins, (IH s eq_refl).
Qed.

(** A sort that returns has only compared keys of one kind. *)
Lemma sortedM_entry_homogeneous l r :
  sortedM entry_lt l = Ok r → 2 ≤ length l →
  Forall str_keyed l ∨ Forall int_keyed l.
Proof.
  revert r. induction l as [|x l IH]; intros r Hsort Hlen; [simpl in Hlen; lia|].
  rewrite sortedM_cons in Hsort.
  destruct (sortedM entry_lt l) as [s|e'] eqn:Hs; [|done].
  change (insertM entry_lt x s = Ok r) in Hsort.
  pose proof (sortedM_entry_perm _ _ Hs) as Hperm.
  destruct s as [|y s].
  { apply Permutation_nil_l in Hperm. subst l. simpl in Hlen. lia. }
  rewrite insertM_cons in Hsort.
  destruct (entry_lt y x) as [b|e'] eqn:Hcmp; [|done].
  assert (Hy : y ∈ l) by (rewrite <- Hperm; apply list_elem_of_here).
  destruct (decide (2 ≤ length l)) as [Hl|Hl].
  - destruct (IH _ eq_refl Hl) as [Hall|Hall];
      pose proof (proj1 (Forall_forall _ _) Hall y Hy) as Hky;
      destruct (entry_lt_Ok _ _ _ Hcmp) as [[Hy' Hx]|[Hy' Hx]].
    + left. by apply Forall_cons.
    + by destruct (str_int_keyed_excl y).
    + by destruct (str_int_keyed_excl y).
    + right. by apply Forall_cons.
  - destruct l as [|y' [|? ?]]; [by apply elem_of_nil in Hy| |simpl in Hl; lia].
    apply list_elem_of_singleton in Hy as <-.
    destruct (entry_lt_Ok _ _ _ Hcmp) as [[Hy' Hx]|[Hy' Hx]].
    + left. repeat (apply Forall_cons; split; [done|]). apply Forall_nil_2.
    + right. repeat (apply Forall_cons; split; [done|]). apply Forall_nil_2.
Qed.

(** X11: [save_manifest] raises [TypeError], and saves nothing, whenever
    the index holds both an entry whose path is a string and an entry
    whose path is a number: the sort cannot order the two paths. *)
Theorem save_manifest_mixed_paths (now : pystr) (manifest_data : entry)
    (index : manifest_index) e1 e2 :
  e1 ∈ dvalues index → e2 ∈ dvalues index →
  str_keyed e1 → int_keyed e2 →
  save_manifest now manifest_data index = Raise TypeError.
Proof.
  intros H1 H2 Hs Hi. unfold save_manifest. fold entry_lt.
  destruct (sortedM entry_lt (dvalues index)) as [r|e] eqn:Hsort.
  - exfalso.
    assert (Hlen : 2 ≤ length (dvalues index)).
    { destruct (dvalues index) as [|a [|b l]]; simpl; [| |lia].
      - by apply elem_of_nil in H1.
      - apply list_elem_of_singleton in H1 as ->.
        apply list_elem_of_singleton in H2 as ->.
        by destruct (str_int_keyed_excl a). }
    destruct (sortedM_entry_homogeneous _ _ Hsort Hlen) as [Hall|Hall].
    + apply (str_int_keyed_excl e2); [|done].
      by apply (proj1 (Forall_forall _ _) Hall).
    + apply (str_int_keyed_excl e1); [done|].
      by apply (proj1 (Forall_forall _ _) Hall).
  - by rewrite (sortedM_entry_Raise _ _ Hsort).
Qed.

Lemma save_manifest_mixed_paths_witness :
  save_manifest (py "2025-02-02T00:00:01+00:00") [] mixed_index = Raise TypeError.
Proof.
  apply (save_manifest_mixed_paths _ _ mixed_index
           [(py "path", JStr (py "doc.json"))] [(py "path", JNum 5)]).
  - apply list_elem_of_further, list_elem_of_here.
  - apply list_elem_of_here.
  - by exists (py "doc.json").
  - exact I.
Defined.

(** ** The loop of [main] *)

Lemma images_written_spec d base :
  ∃ st,
    run_resolver (doc_zip d) base (relid_to_target (doc_rels d)) = Ok st
    ∧ images_written d base = written st
    ∧ ∀ rid t c,
        dget rid (relid_to_target (doc_rels d)) = Some t →
        doc_zip d !! normalize t = Some c →
        ∃ name, image_map st !! rid = Some name ∧ (name, c) ∈ written st.
Proof.
  destruct (run_resolver_ok (doc_rels d) (doc_zip d) base) as (st & Hrun & Hinv).
  exists st. split_and!; [done | by unfold images_written; rewrite Hrun |].
  intros rid t c Hget Hz.
  destruct (inv_map _ _ _ _ Hinv rid t (dget_Some_elem_of _ _ _ Hget))
    as (i & Hi & Him).
  unfold outcome in Him. rewrite Hz in Him.
  eexists. split; [exact Him|].
  rewrite (inv_written _ _ _ _ Hinv). apply elem_of_written_of.
  by exists i, (normalize t).
Qed.

Lemma parse_raises_past_end d base table_index has_header :
  (Z.of_nat (length (doc_tables d)) ≤ table_index)%Z →
  parse_docx_table_with_images d base table_index has_header
  = Raise (IndexError (table_error_msg (doc_path d) (length (doc_tables d))
                                       table_index)).
Proof.
  intros Hge.
  destruct (resolver_final (doc_rels d) (doc_zip d) base) as (st & _ & Hext & _).
  unfold parse_docx_table_with_images. rewrite Hext. simpl.
  by destruct (Z.leb_spec (Z.of_nat (length (doc_tables d))) table_index); [|lia].
Qed.

(** X12: a document whose table index lies past its last table is
    skipped without a trace in the manifest index, the JSON files or the
    card count; but its pictures have been extracted all the same: for
    every image relationship whose entry is in the container, a file with
    the bytes of that entry has been written into the output folder. *)
Theorem failed_document_leaves_images table_index has_header st inp :
  (Z.of_nat (length (doc_tables (in_docx inp))) ≤ table_index)%Z →
  batch_index (process_document table_index has_header st inp) = batch_index st
  ∧ out_json (process_document table_index has_header st inp) = out_json st
  ∧ total_cards (process_document table_index has_header st inp)
    = total_cards st
  ∧ out_images (process_document table_index has_header st inp)
    = out_images st
      ++ images_written (in_docx inp) (fst (splitext (in_filename inp)))
  ∧ ∀ rid t c,
      dget rid (relid_to_target (doc_rels (in_docx inp))) = Some t →
      doc_zip (in_docx inp) !! normalize t = Some c →
      ∃ name,
        (name, c) ∈ out_images (process_document table_index has_header st inp).
Proof.
  intros Hge. unfold process_document.
  rewrite (parse_raises_past_end _ _ _ _ Hge). simpl.
  split_and!; try done.
  intros rid t c Hget Hz.
  destruct (images_written_spec (in_docx inp) (fst (splitext (in_filename inp))))
    as (rs & _ & Hw & Hforth).
  destruct (Hforth rid t c Hget Hz) as (name & _ & Hin).
  exists name. rewrite Hw, elem_of_app. by right.
Qed.

Lemma failed_document_leaves_images_witness :
  batch_index (process_document 3 true (BatchState [] [] [] 0) sample_input) = []
  ∧ out_json (process_document 3 true (BatchState [] [] [] 0) sample_input) = []
  ∧ ∃ name,
      (name, [x89; x50]%byte)
      ∈ out_images (process_document 3 true (BatchState [] [] [] 0) sample_input).
Proof.
  destruct (failed_document_leaves_images 3 true (BatchState [] [] [] 0)
              sample_input) as (Hidx & Hjson & _ & _ & Himg).
  - simpl. lia.
  - split; [exact Hidx|]. split; [exact Hjson|].
    apply (Himg (py "rId1") (py "media/image1.png")); reflexivity.
Defined.

Lemma upsert_keeps index name ty src at_ k :
  is_Some (dget k index) → is_Some (dget k (upsert index name ty src at_)).
Proof.
  intros Hk. destruct (decide (k = HStr name)) as [->|Hne].
  - destruct (upsert_same index name ty src at_) as (e' & -> & _). by eexists.
  - by rewrite upsert_other.
Qed.

Lemma upsert_has index name ty src at_ :
  is_Some (dget (HStr name) (upsert index name ty src at_)).
Proof. destruct (upsert_same index name ty src at_) as (e' & -> & _). by eexists. Qed.

Lemma update_manifest_keeps index d k :
  is_Some (dget k index) → is_Some (dget k (update_manifest index d)).
Proof.
  unfold update_manifest. intros Hk.
  assert (Hgen : ∀ imgs idx, is_Some (dget k idx) →
    is_Some (dget k (fold_left (fun index img_name =>
       upsert index img_name (py "image") (source_docx d) (parsed_at d))
       imgs idx))).
  { induction imgs as [|img imgs IH]; intros idx Hidx; simpl; [done|].
    by apply IH, upsert_keeps. }
  by apply Hgen, upsert_keeps.
Qed.

Lemma update_manifest_has index d name :
  name ∈ output_json_name d :: image_files d →
  is_Some (dget (HStr name) (update_manifest index d)).
Proof.
  unfold update_manifest. intros Hname.
  assert (Hkeep : ∀ imgs idx k, is_Some (dget k idx) →
    is_Some (dget k (fold_left (fun index img_name =>
       upsert index img_name (py "image") (source_docx d) (parsed_at d))
       imgs idx))).
  { induction imgs as [|img imgs IH]; intros idx k Hidx; simpl; [done|].
    by apply IH, upsert_keeps. }
  apply elem_of_cons in Hname as [->|Himg].
  - apply Hkeep, upsert_has.
  - generalize (upsert index (output_json_name d) (py "json") (source_docx d)
                       (parsed_at d)).
    induction (image_files d) as [|img imgs IH]; intros idx;
      [by apply elem_of_nil in Himg|].
    simpl. apply elem_of_cons in Himg as [->|Himg].
    + apply Hkeep, upsert_has.
    + by apply IH.
Qed.

(** The invariant of the loop of [main], relative to a state [st0] it
    started from. *)
Lemma process_documents_inv table_index has_header docs st0 :
  let st := fold_left (process_document table_index has_header) docs st0 in
  total_cards st
  = total_cards st0
    + sum_list_with (fun jc => length (snd jc))
                    (drop (length (out_json st0)) (out_json st))
  ∧ (∃ more, out_json st = out_json st0 ++ more)
  ∧ (∀ k, is_Some (dget k (batch_index st0)) → is_Some (dget k (batch_index st)))
  ∧ (∀ inp cards files,
       inp ∈ docs →
       parse_docx_table_with_images (in_docx inp)
         (fst (splitext (in_filename inp))) table_index has_header
       = Ok (cards, files) →
       (fst (splitext (in_filename inp)) ++ py ".json", cards) ∈ out_json st
       ∧ ∀ name,
           name ∈ (fst (splitext (in_filename inp)) ++ py ".json") :: files →
           is_Some (dget (HStr name) (batch_index st))).
Proof.
  revert st0. induction docs as [|inp docs IH]; intros st0; simpl.
  - split_and!.
    + rewrite drop_all. simpl. lia.
    + exists []. by rewrite app_nil_r.
    + done.
    + intros inp cards files Hin. by apply elem_of_nil in Hin.
  - specialize (IH (process_document table_index has_header st0 inp)).
    simpl in IH. destruct IH as (Htot & [more Hmore] & Hkeep & Hdocs).
    set (st1 := process_document table_index has_header st0 inp) in *.
    set (st := fold_left (process_document table_index has_header) docs st1) in *.
    assert (Hstep :
      (out_json st1 = out_json st0 ∧ total_cards st1 = total_cards st0
       ∧ batch_index st1 = batch_index st0
       ∧ ∃ e, parse_docx_table_with_images (in_docx inp)
                (fst (splitext (in_filename inp))) table_index has_header
              = Raise e)
      ∨ (∃ cards files,
           parse_docx_table_with_images (in_docx inp)
             (fst (splitext (in_filename inp))) table_index has_header
           = Ok (cards, files)
           ∧ out_json st1
             = out_json st0
               ++ [(fst (splitext (in_filename inp)) ++ py ".json", cards)]
           ∧ total_cards st1 = total_cards st0 + length cards
           ∧ batch_index st1
             = update_manifest (batch_index st0)
                 (DocOutput (in_filename inp) (in_parsed_at inp)
                    (fst (splitext (in_filename inp)) ++ py ".json") files))).
    { unfold st1, process_document.
      destruct (parse_docx_table_with_images _ _ _ _) as [[cards files]|e].
      - right. by exists cards, files.
      - left. split_and!; try done. by exists e. }
    destruct Hstep as [(Hj & Ht & Hi & e & Hparse)
                      | (cards & files & Hparse & Hj & Ht & Hi)].
    + split_and!.
      * by rewrite Htot, Ht, Hj.
      * exists more. by rewrite Hmore, Hj.
      * intros k Hk. apply Hkeep. by rewrite Hi.
      * intros inp' cards' files' [->|Hin]%elem_of_cons Hparse'; [congruence|].
        by apply Hdocs.
    + split_and!.
      * rewrite Htot, Ht, Hmore, Hj, <- !app_assoc.
        rewrite !drop_app_length, length_app, (app_assoc (out_json st0)).
        replace (length (out_json st0) + length [(fst (splitext (in_filename inp)) ++ py ".json", cards)])
          with (length (out_json st0 ++ [(fst (splitext (in_filename inp)) ++ py ".json", cards)]))
          by by rewrite length_app.
        rewrite drop_app_length. simpl. lia.
      * eexists. rewrite Hmore, Hj, <- app_assoc. reflexivity.
      * intros k Hk. apply Hkeep. rewrite Hi. by apply update_manifest_keeps.
      * intros inp' cards' files' [->|Hin]%elem_of_cons Hparse'; [|by apply Hdocs].
        rewrite Hparse in Hparse'. injection Hparse' as <- <-. split.
        -- rewrite Hmore, Hj, !elem_of_app. left. right. apply list_elem_of_here.
        -- intros name Hname. apply Hkeep. rewrite Hi.
           by apply update_manifest_has.
Qed.

(** X13: after the loop of [main], the card count is the number of cards
    in the JSON files written; no key of the loaded index has been
    removed; and every document that was parsed has its JSON file among
    those written and an entry in the index for that file and for each of
    its image files. *)
Theorem main_loop_records_outputs table_index has_header docs index :
  total_cards (main_loop table_index has_header docs index)
  = sum_list_with (fun jc => length (snd jc))
      (out_json (main_loop table_index has_header docs index))
  ∧ (∀ k, is_Some (dget k index) →
          is_Some (dget k (batch_index
                             (main_loop table_index has_header docs index))))
  ∧ (∀ inp cards files,
       inp ∈ docs →
       parse_docx_table_with_images (in_docx inp)
         (fst (splitext (in_filename inp))) table_index has_header
       = Ok (cards, files) →
       (fst (splitext (in_filename inp)) ++ py ".json", cards)
       ∈ out_json (main_loop table_index has_header docs index)
       ∧ ∀ name,
           name ∈ (fst (splitext (in_filename inp)) ++ py ".json") :: files →
           is_Some (dget (HStr name)
                      (batch_index
                         (main_loop table_index has_header docs index)))).
Proof.
  destruct (process_documents_inv table_index has_header docs
              (BatchState [] [] index 0)) as (Htot & _ & Hkeep & Hdocs).
  unfold main_loop. split_and!; [|exact Hkeep|exact Hdocs].
  rewrite Htot. simpl. by rewrite drop_0.
Qed.

Lemma main_loop_records_outputs_witness :
  total_cards (main_loop 0 true [sample_input] sample_index) = 3
  ∧ is_Some (dget (HStr (py "doc_Image03.bin"))
               (batch_index (main_loop 0 true [sample_input] sample_index))).
Proof.
  destruct (main_loop_records_outputs 0 true [sample_input] sample_index)
    as (Htot & _ & Hdocs).
  split.
  - rewrite Htot. vm_compute. reflexivity.
  - destruct (Hdocs sample_input
                [ Card (py "Cats")
                       (bullet ++ py "item1" ++ [10%N] ++ [9%N] ++ bullet
                        ++ py "item2" ++ [10%N] ++ bullet ++ py "item3");
                  Card (py "Dogs and more") (py "see [[image:doc_Image01.png]]");
                  Card [] (py "see") ]
                [py "doc_Image01.png"; py "doc_Image03.bin"]) as [_ Hnames].
    + apply list_elem_of_here.
    + vm_compute. reflexivity.
    + apply Hnames. do 2 apply list_elem_of_further. apply list_elem_of_here.
Defined.

Lemma process_documents_all_failed table_index has_header docs st0 :
  (∀ inp, inp ∈ docs →
     (Z.of_nat (length (doc_tables (in_docx inp))) ≤ table_index)%Z) →
  batch_index (fold_left (process_document table_index has_header) docs st0)
  = batch_index st0
  ∧ out_json (fold_left (process_document table_index has_header) docs st0)
    = out_json st0
  ∧ total_cards (fold_left (process_document table_index has_header) docs st0)
    = total_cards st0.
Proof.
  revert st0. induction docs as [|inp docs IH]; intros st0 Hfail; simpl; [done|].
  destruct (IH (process_document table_index has_header st0 inp)) as (Hi & Hj & Ht).
  { intros inp' Hin. by apply Hfail, list_elem_of_further. }
  rewrite Hi, Hj, Ht. unfold process_document.
  by rewrite (parse_raises_past_end _ _ _ _ (Hfail inp (list_elem_of_here _ _))).
Qed.

(** X14: with no candidate document [main] returns after loading the
    manifest and saves nothing; with at least one, it saves the manifest
    even if every document fails: when each one lacks the requested
    table, no JSON file is written, no card is counted, and the saved
    manifest holds exactly the loaded entries, in strictly ascending
    order of their filenames, under a new timestamp. *)
Theorem main_all_documents_failed (fs : filesystem) (manifest_path : pystr)
    table_index has_header docs (now : pystr) (o : entry)
    (index : manifest_index) :
  load_manifest fs manifest_path = Ok (JObj o, index) →
  NoDup (dkeys index) → str_paths index →
  (∀ inp, inp ∈ docs →
     (Z.of_nat (length (doc_tables (in_docx inp))) ≤ table_index)%Z) →
  main fs manifest_path table_index has_header [] now
  = Ok (None, BatchState [] [] index 0)
  ∧ (docs ≠ [] →
     ∃ files st,
       main fs manifest_path table_index has_header docs now
       = Ok (Some (dset (py "files") (JArr (JObj <$> files))
                        (dset (py "generated_at") (JStr now) o)), st)
       ∧ batch_index st = index ∧ out_json st = [] ∧ total_cards st = 0
       ∧ files ≡ₚ dvalues index
       ∧ StronglySorted entry_le files
       ∧ ∃ names : list pystr,
           Forall2 (fun name e => dget (HStr name) index = Some e
                                  ∧ dget (py "path") e = Some (JStr name))
                   names files
           ∧ StronglySorted (fun a b => str_lt a b = true) names).
Proof.
  intros Hload Hnd Hwf Hfail. unfold main. rewrite Hload. simpl.
  split; [done|]. intros Hdocs.
  destruct docs as [|inp docs]; [done|].
  destruct (process_documents_all_failed table_index has_header (inp :: docs)
              (BatchState [] [] index 0) Hfail) as (Hi & Hj & Ht).
  fold (main_loop table_index has_header (inp :: docs) index) in Hi, Hj, Ht.
  simpl in Hi, Hj, Ht.
  destruct (sortedM_str (dvalues index) (values_str_keyed _ Hnd Hwf))
    as (files & Hsort & Hperm & Hsorted).
  destruct (sorted_files_names index files Hnd Hwf Hperm Hsorted)
    as (names & Hnames & _ & Hstrict).
  exists files, (main_loop table_index has_header (inp :: docs) index).
  split_and!; try done.
  - unfold save_manifest. fold entry_lt. by rewrite Hi, Hsort.
  - by exists names.
Qed.

Lemma main_all_documents_failed_witness :
  ∃ files st,
    main sample_fs (py "out/manifest.json") 3 true [sample_input]
         (py "2025-02-02T00:00:01+00:00")
    = Ok (Some (dset (py "files") (JArr (JObj <$> files))
                  (dset (py "generated_at")
                     (JStr (py "2025-02-02T00:00:01+00:00"))
                     [(py "generated_at", JStr (py "2024-01-01T00:00:00+00:00"));
                      (py "files", JArr (JObj <$> dvalues sample_index))])), st)
    ∧ batch_index st = sample_index ∧ out_json st = [].
Proof.
  assert (Hnd : NoDup (dkeys sample_index)) by by_decide.
  assert (Hwf : str_paths sample_index).
  { intros k e Hk. unfold sample_index in Hk. simpl in Hk.
    repeat case_decide; simplify_eq; eexists; (split; [reflexivity|]);
      reflexivity. }
  destruct (main_all_documents_failed sample_fs (py "out/manifest.json") 3 true
              [sample_input] (py "2025-02-02T00:00:01+00:00")
              [(py "generated_at", JStr (py "2024-01-01T00:00:00+00:00"));
               (py "files", JArr (JObj <$> dvalues sample_index))]
              sample_index) as [_ Hsaved]; [| exact Hnd | exact Hwf | |].
  - vm_compute. reflexivity.
  - intros inp ->%list_elem_of_singleton. simpl. lia.
  - destruct Hsaved as (files & st & Hmain & Hi & Hj & _); [discriminate|].
    exists files, st. split; [exact Hmain|]. split; [exact Hi | exact Hj].
Defined.
